(** * swamp: the credential-renewal chain of [swamp.go]

    A shallow embedding of [swamp.go] (package [main]) and the properties
    of its renewal chain.  The process talks to three collaborators that
    the source only calls: the AWS SDK (session creation and the three STS
    operations), the operating system (standard streams, the export file,
    the clock) and the repository's own [SwampConfig] and [ProfileWriter].
    Every function of [swamp.go] is a computation in a state-and-outcome
    monad over an explicit [World]; the answers of the collaborators are
    read from an [Env] of oracles that may depend on the whole world so
    far, so that a theorem quantified over [Env] covers every behaviour of
    the provider and of the operating system. *)

From Stdlib Require Import ZArith Lia Ascii.
From stdpp Require Import base gmap list strings.

Local Open Scope Z_scope.

(** * Part I: definitions *)

(** ** Go library functions used by the source *)

Module Go.

(** [error] values are only ever printed with [%v]; they are modelled by
    the text [Error()] returns. *)
Definition error := string.

(** A signed 64-bit integer kept as a [Z]; [wrap64] is the two's
    complement wrap-around of [int64] arithmetic. *)
Definition wrap64 (z : Z) : Z := (z + 2 ^ 63) mod 2 ^ 64 - 2 ^ 63.

Definition int64_mul (a b : Z) : Z := wrap64 (a * b).

(** [a / b] on [int64] truncates towards zero; for a divisor other than
    [-1] the quotient of two [int64] values is an [int64] value. *)
Definition int64_div (a b : Z) : Z := Z.quot a b.

(** [time.Duration] is an [int64] count of nanoseconds. *)
Definition time_Second : Z := 1000000000.

Fixpoint byte_in (c : ascii) (cutset : string) : bool :=
  match cutset with
  | EmptyString => false
  | String c' cutset' => bool_decide (c = c') || byte_in c cutset'
  end.

(** [strings.TrimLeft], [strings.TrimRight] and [strings.Trim] for a
    cutset of one-byte characters. *)
Fixpoint TrimLeft (s cutset : string) : string :=
  match s with
  | EmptyString => EmptyString
  | String c s' => if byte_in c cutset then TrimLeft s' cutset else s
  end.

Fixpoint TrimRight (s cutset : string) : string :=
  match s with
  | EmptyString => EmptyString
  | String c s' =>
      match TrimRight s' cutset with
      | EmptyString => if byte_in c cutset then EmptyString else String c EmptyString
      | t => String c t
      end
  end.

Definition Trim (s cutset : string) : string :=
  TrimRight (TrimLeft s cutset) cutset.

(** [strings.Split(s, sep)] for a separator of one byte: the pieces of
    [s] between the occurrences of [sep]; never empty. *)
Fixpoint Split (s : string) (sep : ascii) : list string :=
  match s with
  | EmptyString => [EmptyString]
  | String c s' =>
      if bool_decide (c = sep) then EmptyString :: Split s' sep
      else match Split s' sep with
           | piece :: pieces => String c piece :: pieces
           | [] => [String c EmptyString]
           end
  end.

(** [ReadString(delim)] of a [bufio.Reader] on the bytes still to come: the
    text up to and including the first [delim] and what follows it, or
    [None] when the input ends before a [delim] (the call then returns
    [io.EOF]). *)
Fixpoint ReadString (input : string) (delim : ascii) : option (string * string) :=
  match input with
  | EmptyString => None
  | String c rest =>
      if bool_decide (c = delim) then Some (String c EmptyString, rest)
      else match ReadString rest delim with
           | Some (line, rest') => Some (String c line, rest')
           | None => None
           end
  end.

Definition io_EOF : error := "EOF".

End Go.

(** ** Data of the program and of its collaborators *)

(** [sts.Credentials]. *)
Record Credentials := mkCredentials {
  AccessKeyId : string;
  SecretAccessKey : string;
  SessionToken : string;
  Expiration : Z
}.

(** The fields of [session.Options] the source sets:
    [Config: aws.Config{Region: ...}] and [Profile]. *)
Record SessionOptions := mkOptions {
  Region : string;
  Profile : string
}.

(** How a session was asked for: [session.NewSessionWithOptions(o)] or
    [session.NewSession()]. *)
Inductive SessionSource :=
| WithOptions (o : SessionOptions)
| Default.

(** A [*session.Session]: where it came from and its [Config.Region]
    (a [*string], [None] for [nil]). *)
Record Session := mkSession {
  source : SessionSource;
  Config_Region : option string
}.

(** [sts.GetCallerIdentityOutput]; [Arn] is a [*string]. *)
Record GetCallerIdentityOutput := mkIdentity {
  Arn : option string
}.

Record GetSessionTokenInput := mkGetSessionTokenInput {
  gst_DurationSeconds : Z;
  gst_SerialNumber : string;
  gst_TokenCode : option string
}.

Record AssumeRoleInput := mkAssumeRoleInput {
  RoleArn : string;
  RoleSessionName : string;
  DurationSeconds : Z
}.

(** Modelled from the spec: the struct [SwampConfig] is declared in a
    file of the repository that is missing from the sources.  These are
    the fields [swamp.go] reads, with the types its uses give them (the
    durations are [int64]); [roleArn] stands for the role reference,
    "explicit, or derivable" from the rest of the Configuration. *)
Record SwampConfig := mkConfig {
  profile : string;
  intermediateProfile : string;
  targetProfile : string;
  region : string;
  tokenSerialNumber : string;
  intermediateDuration : Z;
  targetDuration : Z;
  roleArn : string;
  renew : bool;
  exportProfile : bool;
  exportFile : string;
  useInstanceProfile : bool
}.

(** Modelled from the spec: the method [GetRoleArn] of [SwampConfig] is
    missing from the sources; the role reference it returns is "a pure
    function of Configuration". *)
Definition GetRoleArn (config : SwampConfig) : string := roleArn config.

(** Everything the process does that can be observed from outside, in
    the order it happens. *)
Inductive Event :=
| EvNewSession (src : SessionSource) (failure : option Go.error)
| EvGetCallerIdentity (sess : Session) (r : Go.error + GetCallerIdentityOutput)
| EvGetSessionToken (sess : Session) (i : GetSessionTokenInput) (r : Go.error + Credentials)
| EvAssumeRole (sess : Session) (i : AssumeRoleInput) (r : Go.error + Credentials)
| EvStdout (text : string)
| EvStderr (text : string)
| EvReadStdin (r : option string)
| EvWriteProfile (cred : Credentials) (name : string) (rgn : option string)
| EvCreate (path : string) (failure : option Go.error)
| EvFileWrite (path : string) (text : string)
| EvSleep (d : Z).

(** The state outside the process.  [store] is the credentials store
    ([~/.aws/credentials]) keyed by profile name, [files] the other files,
    [stdin] the bytes the operator has still to type, [clock] the
    nanoseconds spent sleeping. *)
Record World := mkWorld {
  trace : list Event;
  store : gmap string (Credentials * option string);
  files : gmap string string;
  stdin : string;
  clock : Z
}.

(** The answers of the collaborators.  Each may depend on the world at
    the moment of the call. *)
Record Env := mkEnv {
  session_failure : World -> SessionSource -> option Go.error;
  default_region : World -> option string;
  sts_GetCallerIdentity : World -> Session -> Go.error + GetCallerIdentityOutput;
  sts_GetSessionToken : World -> Session -> GetSessionTokenInput -> Go.error + Credentials;
  sts_AssumeRole : World -> Session -> AssumeRoleInput -> Go.error + Credentials;
  os_Create_failure : World -> string -> option Go.error
}.

(** ** The monad of process steps *)

(** How a step ends: with a value, by [os.Exit], or by a Go [panic]. *)
Inductive Outcome (A : Type) :=
| Ret (a : A)
| Exited (code : Z)
| Panicked (e : Go.error).

Arguments Ret {A} a.
Arguments Exited {A} code.
Arguments Panicked {A} e.

(** How the model leaves the renewal loop: by the [break] of line 157, or
    with the loop still going when the passes granted to the model are
    used up. *)
Inductive LoopEnd :=
| Broke
| StillLooping.

Definition M (A : Type) : Type := World -> World * Outcome A.

Definition ret {A} (a : A) : M A := fun w => (w, Ret a).

Definition bind {A B} (m : M A) (k : A -> M B) : M B :=
  fun w =>
    match m w with
    | (w', Ret a) => k a w'
    | (w', Exited c) => (w', Exited c)
    | (w', Panicked e) => (w', Panicked e)
    end.

Notation "x <-- m ;; k" := (bind m (fun x => k))
  (at level 100, m at next level, right associativity).
Notation "m ;;; k" := (bind m (fun _ => k))
  (at level 100, right associativity).

Definition log (ev : Event) (w : World) : World :=
  mkWorld (trace w ++ [ev]) (store w) (files w) (stdin w) (clock w).

Definition set_store (st : gmap string (Credentials * option string)) (w : World) : World :=
  mkWorld (trace w) st (files w) (stdin w) (clock w).

Definition set_files (fs : gmap string string) (w : World) : World :=
  mkWorld (trace w) (store w) fs (stdin w) (clock w).

Definition set_stdin (input : string) (w : World) : World :=
  mkWorld (trace w) (store w) (files w) input (clock w).

Definition advance (d : Z) (w : World) : World :=
  mkWorld (trace w) (store w) (files w) (stdin w) (clock w + d).

Definition emit (ev : Event) : M unit := fun w => (log ev w, Ret tt).

Definition os_Exit {A} (code : Z) : M A := fun w => (w, Exited code).

Definition panic {A} (e : Go.error) : M A := fun w => (w, Panicked e).

(** ** The calls into the collaborators and the functions of [swamp.go] *)

Definition LF : ascii := ascii_of_nat 10.
Definition CR : ascii := ascii_of_nat 13.
Definition SP : ascii := ascii_of_nat 32.
Definition slash : ascii := ascii_of_nat 47.

(** The Go string literal ["\n"]. *)
Definition nl : string := String LF EmptyString.

(** The cutset [" \r\n"] of [getTokenCode]. *)
Definition mfa_cutset : string := String SP (String CR (String LF EmptyString)).

Section Program.

Variable env : Env.

(** [fmt.Printf] and [fmt.Fprintf(os.Stderr, ...)] with the text already
    formatted.  The source ignores what they return. *)
Definition Printf (text : string) : M unit := emit (EvStdout text).

Definition Fprintf_Stderr (text : string) : M unit := emit (EvStderr text).

(** [session.NewSessionWithOptions] and [session.NewSession].  A session
    made from options has the region of the options; one made from the
    defaults has the region the environment gives, if any. *)
Definition session_new (src : SessionSource) : M (Go.error + Session) :=
  fun w =>
    match session_failure env w src with
    | Some err => (log (EvNewSession src (Some err)) w, Ret (inl err))
    | None =>
        let rgn := match src with
                   | WithOptions o => Some (Region o)
                   | Default => default_region env w
                   end in
        (log (EvNewSession src None) w, Ret (inr (mkSession src rgn)))
    end.

Definition NewSessionWithOptions (options : SessionOptions) : M (Go.error + Session) :=
  session_new (WithOptions options).

Definition NewSession : M (Go.error + Session) := session_new Default.

(** [session.Must] panics with the error of the session, if any. *)
Definition Must (r : Go.error + Session) : M Session :=
  match r with
  | inl err => panic err
  | inr sess => ret sess
  end.

(** The three operations of the STS client [sts.New(sess)]; the client
    is identified with its session. *)
Definition GetCallerIdentity (svc : Session) : M (Go.error + GetCallerIdentityOutput) :=
  fun w =>
    let r := sts_GetCallerIdentity env w svc in
    (log (EvGetCallerIdentity svc r) w, Ret r).

Definition GetSessionToken (svc : Session) (i : GetSessionTokenInput)
  : M (Go.error + Credentials) :=
  fun w =>
    let r := sts_GetSessionToken env w svc i in
    (log (EvGetSessionToken svc i r) w, Ret r).

Definition AssumeRole (svc : Session) (i : AssumeRoleInput) : M (Go.error + Credentials) :=
  fun w =>
    let r := sts_AssumeRole env w svc i in
    (log (EvAssumeRole svc i r) w, Ret r).

(** [bufio.NewReader(os.Stdin).ReadString('\n')].  Standard input is a
    terminal that hands over one line per read, so the reader made for
    one call takes nothing of the next line. *)
Definition ReadString_Stdin : M (option string) :=
  fun w =>
    match Go.ReadString (stdin w) LF with
    | Some (line, rest) =>
        (log (EvReadStdin (Some line)) (set_stdin rest w), Ret (Some line))
    | None =>
        (log (EvReadStdin None) (set_stdin EmptyString w), Ret None)
    end.

(** [os.Create]: the file exists and is empty afterwards, or the call
    fails and the file system is as before. *)
Definition os_Create (path : string) : M (option Go.error) :=
  fun w =>
    match os_Create_failure env w path with
    | Some err => (log (EvCreate path (Some err)) w, Ret (Some err))
    | None =>
        (log (EvCreate path None) (set_files (<[path := EmptyString]> (files w)) w),
         Ret None)
    end.

(** [fmt.Fprintf(file, ...)] on the file opened at [path]: the text goes
    to the end of the file.  The source ignores what it returns. *)
Definition Fprintf_file (path text : string) : M unit :=
  fun w =>
    (log (EvFileWrite path text)
       (set_files (<[path := default EmptyString (files w !! path) +:+ text]> (files w)) w),
     Ret tt).

(** [time.Sleep(d)]: a negative or zero duration returns at once. *)
Definition time_Sleep (d : Z) : M unit :=
  fun w =>
    (log (EvSleep d) (advance (Z.max 0 d) w), Ret tt).

(** Modelled from the spec: the method [writeProfile] of [ProfileWriter]
    is missing from the sources.  "WriteProfile(credentials, profileName,
    region)" upserts the named entry: "writing the same profile name
    twice fully overwrites the previous entry (no merge, no duplicate
    entries)". *)
Definition writeProfile (cred : Credentials) (name : string) (rgn : option string)
  : M unit :=
  fun w =>
    (log (EvWriteProfile cred name rgn) (set_store (<[name := (cred, rgn)]> (store w)) w),
     Ret tt).

(** ** The functions of [swamp.go] *)

(** [die], lines 16-19.  [msg] is part of the format; every [msg] of the
    source is a literal without a verb of its own, and [%v] prints the
    text of the error. *)
Definition die {A} (msg : string) (err : Go.error) : M A :=
  Fprintf_Stderr (msg +:+ ": " +:+ err +:+ nl) ;;;
  os_Exit 1.

(** [getCallerId], lines 21-28. *)
Definition getCallerId (svc : Session) : M GetCallerIdentityOutput :=
  r <-- GetCallerIdentity svc ;;
  match r with
  | inl err => die "Error fetching caller id" err
  | inr output => ret output
  end.

(** [getTokenCode], lines 30-44; the result is a [*string]. *)
Definition getTokenCode (tokenSerialNumber : string) : M (option string) :=
  if bool_decide (tokenSerialNumber = EmptyString) then ret None
  else
    Printf ("Enter mfa token for " +:+ tokenSerialNumber +:+ ": ") ;;;
    r <-- ReadString_Stdin ;;
    match r with
    | None => die "Error reading mfa token" Go.io_EOF
    | Some tokenCode => ret (Some (Go.Trim tokenCode mfa_cutset))
    end.

(** [validateSessionToken], lines 46-51. *)
Definition validateSessionToken (options : SessionOptions) : M bool :=
  r <-- NewSessionWithOptions options ;;
  sess <-- Must r ;;
  r <-- GetCallerIdentity sess ;;
  ret (match r with inl _ => false | inr _ => true end).

(** [getSessionToken], lines 53-66.  The input struct is built, and so
    the operator is asked for the code, before the call is made. *)
Definition getSessionToken (options : SessionOptions) (config : SwampConfig)
  : M Credentials :=
  r <-- NewSessionWithOptions options ;;
  sess <-- Must r ;;
  tokenCode <-- getTokenCode (tokenSerialNumber config) ;;
  r <-- GetSessionToken sess
          (mkGetSessionTokenInput (intermediateDuration config)
             (tokenSerialNumber config) tokenCode) ;;
  match r with
  | inl err => die "Error getting session token" err
  | inr cred => ret cred
  end.

(** [ensureSessionTokenProfile], lines 70-83. *)
Definition ensureSessionTokenProfile (config : SwampConfig) : M unit :=
  valid <-- validateSessionToken
              (mkOptions (region config) (intermediateProfile config)) ;;
  if valid then
    Printf ("Session token for profile " +:+ profile config +:+ " is still valid" +:+ nl)
  else
    cred <-- getSessionToken (mkOptions (region config) (profile config)) config ;;
    writeProfile cred (intermediateProfile config) (Some (region config)).

(** [assumeRole], lines 85-96. *)
Definition assumeRole (svc : Session) (roleArn roleSessionName : string) (duration : Z)
  : M Credentials :=
  r <-- AssumeRole svc (mkAssumeRoleInput roleArn roleSessionName duration) ;;
  match r with
  | inl err => die "Error assuming role" err
  | inr cred => ret cred
  end.

(** [*userId]: a nil pointer panics. *)
Definition deref (p : option string) : M string :=
  match p with
  | Some s => ret s
  | None => panic "invalid memory address or nil pointer dereference"
  end.

(** [parts[i]]: an index out of range panics. *)
Definition index (parts : list string) (i : nat) : M string :=
  match parts !! i with
  | Some s => ret s
  | None => panic "index out of range"
  end.

(** [ensureTargetProfile], lines 99-108. *)
Definition ensureTargetProfile (config : SwampConfig) (sess : Session) : M unit :=
  let svc := sess in
  output <-- getCallerId svc ;;
  userId <-- deref (Arn output) ;;
  let parts := Go.Split userId slash in
  roleSessionName <-- index parts (length parts - 1) ;;
  cred <-- assumeRole svc (GetRoleArn config) roleSessionName (targetDuration config) ;;
  writeProfile cred (targetProfile config) (Config_Region sess).

(** The text [writeProfileToFile] formats. *)
Definition export_text (name : string) : string :=
  "export AWS_PROFILE=" +:+ name +:+ nl +:+
  "unset AWS_ACCESS_KEY_ID" +:+ nl +:+
  "unset AWS_SECRET_ACCESS_KEY" +:+ nl.

(** [writeProfileToFile], lines 110-118.  The deferred [file.Close()]
    changes nothing that is observed here. *)
Definition writeProfileToFile (config : SwampConfig) : M unit :=
  failure <-- os_Create (exportFile config) ;;
  match failure with
  | Some err => die "Error writing target profile to export file" err
  | None => Fprintf_file (exportFile config) (export_text (targetProfile config))
  end.

(** [baseProfile] as [main] leaves it at lines 127-132. *)
Definition baseProfile (config : SwampConfig) : string :=
  if bool_decide (tokenSerialNumber config ≠ EmptyString)
  then intermediateProfile config
  else profile config.

(** The session of lines 141-148. *)
Definition targetSession (config : SwampConfig) : M Session :=
  if useInstanceProfile config then
    r <-- NewSession ;; Must r
  else
    r <-- NewSessionWithOptions (mkOptions (region config) (baseProfile config)) ;;
    Must r.

(** One pass through the body of the loop of [main], lines 136-154. *)
Definition chain (config : SwampConfig) : M unit :=
  (if bool_decide (tokenSerialNumber config ≠ EmptyString)
   then ensureSessionTokenProfile config
   else ret tt) ;;;
  sess <-- targetSession config ;;
  ensureTargetProfile config sess ;;;
  if exportProfile config then writeProfileToFile config else ret tt.

(** The argument of [time.Sleep] at line 159:
    [time.Second * time.Duration(config.targetDuration / 2)]. *)
Definition sleepDuration (config : SwampConfig) : Z :=
  Go.int64_mul Go.time_Second (Go.int64_div (targetDuration config) 2).

(** The loop of [main], lines 135-160, once the flags are parsed and
    validated.  [passes] bounds how many passes the model follows; a
    loop that would go on after them ends as [StillLooping]. *)
Fixpoint main_loop (passes : nat) (config : SwampConfig) : M LoopEnd :=
  match passes with
  | O => ret StillLooping
  | S n =>
      chain config ;;;
      if negb (renew config) then ret Broke
      else time_Sleep (sleepDuration config) ;;; main_loop n config
  end.

End Program.

(** ** Definitions that follow the words of the specification *)

Module Spec.

(** "the substring after the last [/]" of an identity reference; the
    whole reference when it has no [/]. *)
Fixpoint tail_segment (s : string) : string :=
  match s with
  | EmptyString => EmptyString
  | String c s' =>
      if Go.byte_in slash s' then tail_segment s'
      else if bool_decide (c = slash) then s' else s
  end.

(** "NextAction(renewEnabled, targetDurationSeconds) ->
    Repeat(sleepSeconds) | Terminate", with
    "sleepSeconds = targetDurationSeconds / 2 (integer division)". *)
Inductive Action :=
| Repeat (sleepSeconds : Z)
| Terminate.

Definition NextAction (renewEnabled : bool) (targetDurationSeconds : Z) : Action :=
  if renewEnabled then Repeat (targetDurationSeconds / 2) else Terminate.

(** A process that sleeps exactly [seconds] seconds. *)
Definition sleep_seconds (seconds : Z) : M unit :=
  fun w =>
    (log (EvSleep (seconds * 1000000000)) (advance (seconds * 1000000000) w), Ret tt).

(** What the loop does with the scheduler's decision: stop, or sleep
    and repeat the chain. *)
Definition perform (a : Action) (again : M LoopEnd) : M LoopEnd :=
  match a with
  | Terminate => ret Broke
  | Repeat sleepSeconds => sleep_seconds sleepSeconds ;;; again
  end.

(** The state AssumeTarget without an MFA device: a session on the
    host-assigned identity, if configured, or else on "the originally
    configured base profile", then the steps of [ensureTargetProfile]. *)
Definition AssumeTarget (env : Env) (config : SwampConfig) : M unit :=
  sess <-- (if useInstanceProfile config then
              r <-- NewSession env ;; Must r
            else
              r <-- NewSessionWithOptions env
                      (mkOptions (region config) (profile config)) ;;
              Must r) ;;
  ensureTargetProfile env config sess.

(** The state ExportMaybe. *)
Definition ExportMaybe (env : Env) (config : SwampConfig) : M unit :=
  if exportProfile config then writeProfileToFile env config else ret tt.

(** The loop when "the intermediate hop is skipped entirely": every
    pass is AssumeTarget, ExportMaybe and the loop decision. *)
Fixpoint target_only_loop (env : Env) (passes : nat) (config : SwampConfig)
  : M LoopEnd :=
  match passes with
  | O => ret StillLooping
  | S n =>
      (sess_done <-- AssumeTarget env config ;; ExportMaybe env config) ;;;
      if negb (renew config) then ret Broke
      else time_Sleep (sleepDuration config) ;;; target_only_loop env n config
  end.

(** The session of AssumeTarget when no MFA device is configured. *)
Definition base_source (config : SwampConfig) (src : SessionSource) : bool :=
  match src with
  | Default => useInstanceProfile config
  | WithOptions o =>
      negb (useInstanceProfile config) &&
      bool_decide (Region o = region config /\ Profile o = profile config)
  end.

(** The events of the states IntermediateCheck and IntermediateRenew:
    anything printed to or read from the operator, a session-token
    request, a session or a provider call that is not on the session of
    AssumeTarget, a write of a profile that is not the target profile. *)
Definition intermediate_event (config : SwampConfig) (ev : Event) : bool :=
  match ev with
  | EvStdout _ | EvReadStdin _ | EvGetSessionToken _ _ _ => true
  | EvNewSession src _ => negb (base_source config src)
  | EvGetCallerIdentity sess _ | EvAssumeRole sess _ _ =>
      negb (base_source config (source sess))
  | EvWriteProfile _ name _ => bool_decide (name <> targetProfile config)
  | EvStderr _ | EvCreate _ _ | EvFileWrite _ _ | EvSleep _ => false
  end.

End Spec.

(** ** Notions used to state the properties *)

(** [s] has no byte outside [cutset]. *)
Fixpoint only_bytes_of (cutset s : string) : bool :=
  match s with
  | EmptyString => true
  | String c s' => Go.byte_in c cutset && only_bytes_of cutset s'
  end.

(** Events by which the operator is asked for, or gives, an MFA code. *)
Definition is_prompt (ev : Event) : bool :=
  match ev with
  | EvStdout _ | EvReadStdin _ => true
  | _ => false
  end.

(** Events that change the credentials store. *)
Definition is_write (ev : Event) : bool :=
  match ev with
  | EvWriteProfile _ _ _ => true
  | _ => false
  end.

(** The credentials store after the writes among [evs], in order. *)
Definition replay (evs : list Event) (st : gmap string (Credentials * option string))
  : gmap string (Credentials * option string) :=
  foldl (fun st ev =>
           match ev with
           | EvWriteProfile cred name rgn => <[name := (cred, rgn)]> st
           | _ => st
           end) st evs.

(** A step is orderly when it only adds events to the trace, all of them
    in [P]; when the store afterwards is the store before with the writes
    of those events replayed, none undone; when a value it returns is in
    [Q]; and when an exit has code 1 and comes right after a line on the
    error stream. *)
Definition orderly {A} (P : Event -> Prop) (Q : A -> Prop) (m : M A) : Prop :=
  forall w, exists evs,
    trace (m w).1 = trace w ++ evs /\
    Forall P evs /\
    store (m w).1 = replay evs (store w) /\
    match (m w).2 with
    | Ret a => Q a
    | Exited c => c = 1 /\ exists evs0 text, evs = evs0 ++ [EvStderr text]
    | Panicked _ => True
    end.

(** Where the session of the assume-role step comes from. *)
Definition target_source (config : SwampConfig) : SessionSource :=
  if useInstanceProfile config then Default
  else WithOptions (mkOptions (region config) (baseProfile config)).

(** ** Notions used to state the further properties *)

(** A step is within [R] when the world it leaves is related by [R] to
    the world it starts in, however it ends. *)
Definition within {A} (R : World -> World -> Prop) (m : M A) : Prop :=
  forall w, R w (m w).1.

(** The first byte of [s] is in [cutset]. *)
Definition starts_with_byte_of (cutset s : string) : bool :=
  match s with
  | EmptyString => false
  | String c _ => Go.byte_in c cutset
  end.

(** The last byte of [s] is in [cutset]. *)
Fixpoint ends_with_byte_of (cutset s : string) : bool :=
  match s with
  | EmptyString => false
  | String c s' =>
      match s' with
      | EmptyString => Go.byte_in c cutset
      | String _ _ => ends_with_byte_of cutset s'
      end
  end.

(** Spaces and carriage returns: the bytes of the cutset of
    [getTokenCode] that do not end a line. *)
Definition blanks : string := String SP (String CR EmptyString).

(** The messages with which the source calls [die], at lines 24, 38, 62,
    92 and 113. *)
Definition die_messages : list string :=
  ["Error fetching caller id";
   "Error reading mfa token";
   "Error getting session token";
   "Error assuming role";
   "Error writing target profile to export file"].

(** What the last event of the trace is when a step does not return: a
    line on the error stream made of one of the messages of [die], a
    colon and an error, before an exit with code 1; a session that could
    not be made, or an identity without [Arn], before a panic. *)
Definition abnormal_cause {A} (o : Outcome A) (final : option Event) : Prop :=
  match o with
  | Ret _ => True
  | Exited c =>
      c = 1 /\
      exists msg err,
        msg ∈ die_messages /\ final = Some (EvStderr (msg +:+ ": " +:+ err +:+ nl))
  | Panicked e =>
      (exists src, final = Some (EvNewSession src (Some e))) \/
      (exists sess, final = Some (EvGetCallerIdentity sess (inr (mkIdentity None))))
  end.

Definition ends_well {A} (m : M A) : Prop :=
  forall w, abnormal_cause (m w).2 (last (trace (m w).1)).

(** ** Concrete environments and configurations *)

Module Sample.

Definition session_cred : Credentials :=
  mkCredentials "ASIAINTERMEDIATE" "s3cr3t-1" "token-1" 1700043200.
Definition role_cred : Credentials :=
  mkCredentials "ASIATARGET" "s3cr3t-2" "token-2" 1700003600.
Definition alice : GetCallerIdentityOutput :=
  mkIdentity (Some "arn:aws:iam::123:user/alice").

(** A provider that knows the profile [default] and every profile that
    is in the credentials store, and that accepts every request made
    with a known profile. *)
Definition known (w : World) (sess : Session) : bool :=
  match source sess with
  | WithOptions o =>
      bool_decide (Profile o = "default") || bool_decide (is_Some (store w !! Profile o))
  | Default => true
  end.

Definition provider : Env :=
  mkEnv
    (fun _ _ => None)
    (fun _ => Some "eu-central-1")
    (fun w sess => if known w sess then inr alice else inl "ExpiredToken")
    (fun w sess _ => if known w sess then inr session_cred else inl "AccessDenied")
    (fun w sess _ => if known w sess then inr role_cred else inl "AccessDenied")
    (fun _ _ => None).

(** The same provider on a machine whose shared credentials file
    cannot be parsed: no session can be made. *)
Definition broken_file : Env :=
  mkEnv
    (fun _ _ => Some "SharedConfigLoadError")
    (default_region provider)
    (sts_GetCallerIdentity provider)
    (sts_GetSessionToken provider)
    (sts_AssumeRole provider)
    (os_Create_failure provider).

(** A provider that refuses every role assumption. *)
Definition no_role : Env :=
  mkEnv
    (session_failure provider)
    (default_region provider)
    (sts_GetCallerIdentity provider)
    (sts_GetSessionToken provider)
    (fun _ _ _ => inl "AccessDenied")
    (os_Create_failure provider).

Definition config : SwampConfig :=
  mkConfig "default" "session-token" "swamp" "eu-central-1"
    "arn:aws:iam::123:mfa/alice" 43200 3600
    "arn:aws:iam::456:role/admin" false true "/tmp/out" false.

Definition with_renew (c : SwampConfig) : SwampConfig :=
  mkConfig (profile c) (intermediateProfile c) (targetProfile c) (region c)
    (tokenSerialNumber c) (intermediateDuration c) (targetDuration c)
    (roleArn c) true (exportProfile c) (exportFile c) (useInstanceProfile c).

Definition without_mfa (c : SwampConfig) : SwampConfig :=
  mkConfig (profile c) (intermediateProfile c) (targetProfile c) (region c)
    EmptyString (intermediateDuration c) (targetDuration c)
    (roleArn c) (renew c) (exportProfile c) (exportFile c) (useInstanceProfile c).

Definition with_targetDuration (d : Z) (c : SwampConfig) : SwampConfig :=
  mkConfig (profile c) (intermediateProfile c) (targetProfile c) (region c)
    (tokenSerialNumber c) (intermediateDuration c) d
    (roleArn c) (renew c) (exportProfile c) (exportFile c) (useInstanceProfile c).

(** The operator types [123456] and return. *)
Definition start : World :=
  mkWorld [] ∅ ∅ ("123456" +:+ nl) 0.

(** The operator only hits the space bar and return. *)
Definition blank_line : World :=
  mkWorld [] ∅ ∅ ("  " +:+ String CR nl) 0.

End Sample.

(** Further environments and worlds. *)
Module More.

(** A machine on which the export file cannot be created. *)
Definition read_only : Env :=
  mkEnv
    (session_failure Sample.provider)
    (default_region Sample.provider)
    (sts_GetCallerIdentity Sample.provider)
    (sts_GetSessionToken Sample.provider)
    (sts_AssumeRole Sample.provider)
    (fun _ _ => Some "permission denied").

(** A provider whose identities come without [Arn]. *)
Definition no_arn : Env :=
  mkEnv
    (session_failure Sample.provider)
    (default_region Sample.provider)
    (fun _ _ => inr (mkIdentity None))
    (sts_GetSessionToken Sample.provider)
    (sts_AssumeRole Sample.provider)
    (os_Create_failure Sample.provider).

(** A provider whose identities end with a [/]. *)
Definition trailing_slash : Env :=
  mkEnv
    (session_failure Sample.provider)
    (default_region Sample.provider)
    (fun _ _ => inr (mkIdentity (Some "arn:aws:iam::123:user/")))
    (sts_GetSessionToken Sample.provider)
    (sts_AssumeRole Sample.provider)
    (os_Create_failure Sample.provider).


Definition with_instance_profile (c : SwampConfig) : SwampConfig :=
  mkConfig (profile c) (intermediateProfile c) (targetProfile c) (region c)
    (tokenSerialNumber c) (intermediateDuration c) (targetDuration c)
    (roleArn c) (renew c) (exportProfile c) (exportFile c) true.

Definition without_export (c : SwampConfig) : SwampConfig :=
  mkConfig (profile c) (intermediateProfile c) (targetProfile c) (region c)
    (tokenSerialNumber c) (intermediateDuration c) (targetDuration c)
    (roleArn c) (renew c) false (exportFile c) (useInstanceProfile c).

(** The input ends before the operator hits return. *)
Definition closed_input : World :=
  mkWorld [] ∅ ∅ "123456" 0.

(** The operator types the code between blanks, ends the line with a
    carriage return and a newline, and goes on typing. *)
Definition padded_input : World :=
  mkWorld [] ∅ ∅ (" 123 456 " +:+ String CR nl +:+ "next line" +:+ nl) 0.

(** A machine with files and profiles of its own. *)
Definition busy : World :=
  mkWorld []
    {[ "default" := (mkCredentials "AKIABASE" "base-secret" "" 0, Some "eu-central-1") ]}
    {[ "/tmp/out" := "old content"; "/etc/motd" := "hello" ]}
    ("123456" +:+ nl +:+ "654321" +:+ nl) 0.

End More.

(** * Part II: properties *)

(** ** Facts about the Go library functions *)

Lemma append_nil (s : string) : EmptyString +:+ s = s.
Proof. reflexivity. Qed.

Lemma append_cons (c : ascii) (a b : string) : String c a +:+ b = String c (a +:+ b).
Proof. reflexivity. Qed.

Lemma append_assoc (a b c : string) : a +:+ (b +:+ c) = (a +:+ b) +:+ c.
Proof.
  induction a as [|x a IH]; [reflexivity|].
  rewrite !append_cons. f_equal. exact IH.
Qed.

Lemma string_length_append (a b : string) :
  String.length (a +:+ b) = (String.length a + String.length b)%nat.
Proof. induction a as [|c a IH]; simpl; [reflexivity|]. f_equal. exact IH. Qed.

Lemma append_cancel_r (a b s : string) :
  a +:+ s = b +:+ s -> a = b.
Proof.
  revert b. induction a as [|c a IH]; intros [|c' b] H; cbn in H.
  - reflexivity.
  - apply (f_equal String.length) in H.
    change (String.length s = S (String.length (b +:+ s))) in H.
    rewrite string_length_append in H. lia.
  - apply (f_equal String.length) in H.
    change (S (String.length (a +:+ s)) = String.length s) in H.
    rewrite string_length_append in H. lia.
  - injection H as -> H. f_equal. exact (IH _ H).
Qed.

Lemma byte_in_cons c c' s :
  Go.byte_in c (String c' s) = bool_decide (c = c') || Go.byte_in c s.
Proof. reflexivity. Qed.

Lemma byte_in_append c a b :
  Go.byte_in c (a +:+ b) = Go.byte_in c a || Go.byte_in c b.
Proof.
  induction a as [|x a IH]; [reflexivity|].
  rewrite append_cons, !byte_in_cons, IH. apply orb_assoc.
Qed.

Lemma Split_no_sep s sep :
  Go.byte_in sep s = false -> Go.Split s sep = [s].
Proof.
  induction s as [|c s IH]; intros Hno; [reflexivity|].
  rewrite byte_in_cons in Hno. apply orb_false_iff in Hno as [Hc Hs].
  cbn [Go.Split]. apply bool_decide_eq_false in Hc.
  rewrite bool_decide_false by congruence.
  rewrite (IH Hs). reflexivity.
Qed.

Lemma Split_with_sep s sep :
  Go.byte_in sep s = true -> exists p q ps, Go.Split s sep = p :: q :: ps.
Proof.
  induction s as [|c s IH]; intros Hin; [discriminate|].
  rewrite byte_in_cons in Hin. cbn [Go.Split].
  destruct (Go.byte_in sep s) eqn:Hs.
  - destruct (IH eq_refl) as (p & q & ps & ->).
    destruct (bool_decide (c = sep)); by do 3 eexists.
  - rewrite orb_false_r in Hin. apply bool_decide_eq_true in Hin as ->.
    rewrite bool_decide_true by reflexivity.
    rewrite (Split_no_sep _ _ Hs). by do 3 eexists.
Qed.

Lemma Split_append_sep a b sep :
  Go.byte_in sep a = false ->
  Go.Split (a +:+ String sep b) sep = a :: Go.Split b sep.
Proof.
  induction a as [|c a IH]; intros Hno.
  - rewrite append_nil. cbn [Go.Split]. rewrite bool_decide_true by reflexivity. reflexivity.
  - rewrite byte_in_cons in Hno. apply orb_false_iff in Hno as [Hc Ha].
    apply bool_decide_eq_false in Hc.
    rewrite append_cons. cbn [Go.Split]. rewrite bool_decide_false by congruence.
    rewrite (IH Ha). reflexivity.
Qed.

Lemma tail_segment_no_slash s :
  Go.byte_in slash s = false -> Spec.tail_segment s = s.
Proof.
  destruct s as [|c s]; intros Hno; [reflexivity|].
  rewrite byte_in_cons in Hno. apply orb_false_iff in Hno as [Hc Hs].
  cbn [Spec.tail_segment]. rewrite Hs.
  apply bool_decide_eq_false in Hc.
  rewrite bool_decide_false by congruence. reflexivity.
Qed.

(** The last piece of [strings.Split(s, "/")] is what the specification
    calls the tail segment. *)
Lemma Split_last_tail_segment s :
  last (Go.Split s slash) = Some (Spec.tail_segment s).
Proof.
  induction s as [|c s IH]; [reflexivity|].
  cbn [Go.Split Spec.tail_segment].
  destruct (Go.byte_in slash s) eqn:Hs.
  - destruct (Split_with_sep _ _ Hs) as (p & q & ps & Hsplit).
    rewrite Hsplit in IH |- *. case_bool_decide; exact IH.
  - rewrite (Split_no_sep _ _ Hs). case_bool_decide; reflexivity.
Qed.

Lemma Split_lookup_last s :
  Go.Split s slash !! (length (Go.Split s slash) - 1)%nat = Some (Spec.tail_segment s).
Proof.
  rewrite <- Split_last_tail_segment, last_lookup. f_equal. lia.
Qed.

(** The tail segment has no [/] in it, and the reference is the tail
    segment itself or ends with a [/] followed by the tail segment. *)
Lemma tail_segment_no_slash_inside s :
  Go.byte_in slash (Spec.tail_segment s) = false.
Proof.
  induction s as [|c s IH]; [reflexivity|].
  cbn [Spec.tail_segment]. destruct (Go.byte_in slash s) eqn:Hs; [exact IH|].
  case_bool_decide as Hc; [exact Hs|].
  rewrite byte_in_cons, Hs. rewrite bool_decide_false by congruence. reflexivity.
Qed.

Lemma tail_segment_suffix s :
  s = Spec.tail_segment s \/
  exists front, s = front +:+ String slash (Spec.tail_segment s).
Proof.
  induction s as [|c s IH]; [left; reflexivity|].
  cbn [Spec.tail_segment]. destruct (Go.byte_in slash s) eqn:Hs.
  - right. destruct IH as [IH|[front IH]].
    + exfalso. rewrite IH, tail_segment_no_slash_inside in Hs. discriminate.
    + exists (String c front). rewrite append_cons. f_equal. exact IH.
  - case_bool_decide as Hc; [|left; reflexivity].
    right. exists EmptyString. subst c. reflexivity.
Qed.

Lemma Trim_only_cutset s cutset :
  only_bytes_of cutset s = true -> Go.Trim s cutset = EmptyString.
Proof.
  unfold Go.Trim. induction s as [|c s IH]; intros Hall; [reflexivity|].
  cbn [only_bytes_of] in Hall. apply andb_true_iff in Hall as [Hc Hs].
  cbn [Go.TrimLeft]. rewrite Hc. exact (IH Hs).
Qed.

Lemma wrap64_small z :
  - 2 ^ 63 <= z < 2 ^ 63 -> Go.wrap64 z = z.
Proof.
  intros Hz. unfold Go.wrap64. rewrite Z.mod_small; lia.
Qed.

(** The text of the export file is three lines, each ended by a newline,
    when the profile name has no newline in it. *)
Lemma export_text_lines name :
  Go.byte_in LF name = false ->
  Go.Split (export_text name) LF =
  ["export AWS_PROFILE=" +:+ name;
   "unset AWS_ACCESS_KEY_ID";
   "unset AWS_SECRET_ACCESS_KEY";
   EmptyString].
Proof.
  intros Hname.
  set (tail := "unset AWS_ACCESS_KEY_ID" +:+ nl +:+ "unset AWS_SECRET_ACCESS_KEY" +:+ nl).
  change (export_text name)
    with ("export AWS_PROFILE=" +:+ (name +:+ String LF tail)).
  rewrite append_assoc, Split_append_sep.
  - f_equal.
  - rewrite byte_in_append, Hname. reflexivity.
Qed.

(** ** Facts about the monad *)

Lemma bind_Ret_inv {A B} (m : M A) (k : A -> M B) w w' b :
  bind m k w = (w', Ret b) ->
  exists a w1, m w = (w1, Ret a) /\ k a w1 = (w', Ret b).
Proof.
  unfold bind. destruct (m w) as [w1 [a|c|e]]; intros H; try discriminate.
  eauto.
Qed.

Lemma bind_Ret {A B} (m : M A) (k : A -> M B) w w1 a :
  m w = (w1, Ret a) -> bind m k w = k a w1.
Proof. unfold bind. intros ->. reflexivity. Qed.

Lemma bind_Exited {A B} (m : M A) (k : A -> M B) w w1 c :
  m w = (w1, Exited c) -> bind m k w = (w1, Exited c).
Proof. unfold bind. intros ->. reflexivity. Qed.

Lemma bind_ext {A B} (m m' : M A) (k k' : A -> M B) w :
  m w = m' w -> (forall a w1, k a w1 = k' a w1) -> bind m k w = bind m' k' w.
Proof.
  intros Hm Hk. unfold bind. rewrite Hm. destruct (m' w) as [w1 [a|c|e]]; auto.
Qed.

Lemma bind_assoc {A B C} (m : M A) (f : A -> M B) (g : B -> M C) w :
  bind (bind m f) g w = bind m (fun a => bind (f a) g) w.
Proof.
  unfold bind. destruct (m w) as [w1 [a|c|e]]; reflexivity.
Qed.

Ltac norm_trace :=
  cbn [fst snd trace store files stdin clock log set_store set_files set_stdin advance];
  rewrite <- ?app_assoc; cbn [app].

(** ** What every step leaves behind *)

Lemma replay_app evs1 evs2 st :
  replay (evs1 ++ evs2) st = replay evs2 (replay evs1 st).
Proof. apply foldl_app. Qed.

Section Orderly.

Variable env : Env.
Variable P : Event -> Prop.

Lemma orderly_ret {A} (Q : A -> Prop) a : Q a -> orderly P Q (ret a).
Proof.
  intros Ha w. exists []. cbn. rewrite app_nil_r. repeat split; [constructor|exact Ha].
Qed.

Lemma orderly_panic {A} (Q : A -> Prop) e : orderly P Q (panic e).
Proof.
  intros w. exists []. cbn. rewrite app_nil_r. repeat split. constructor.
Qed.

Lemma orderly_bind {A B} (Q : A -> Prop) (R : B -> Prop) (m : M A) (k : A -> M B) :
  orderly P Q m -> (forall a, Q a -> orderly P R (k a)) -> orderly P R (bind m k).
Proof.
  intros Hm Hk w. destruct (Hm w) as (evs1 & Htr1 & HP1 & Hst1 & Hout1).
  unfold bind. destruct (m w) as [w1 [a|c|e]]; cbn [fst snd] in *.
  - destruct (Hk a Hout1 w1) as (evs2 & Htr2 & HP2 & Hst2 & Hout2).
    exists (evs1 ++ evs2).
    rewrite Htr2, Htr1, Hst2, Hst1, replay_app, app_assoc.
    repeat split; [by apply Forall_app|].
    destruct (k a w1).2 as [b|c|e]; [exact Hout2| |exact I].
    destruct Hout2 as (-> & evs0 & text & ->). split; [reflexivity|].
    exists (evs1 ++ evs0), text. by rewrite app_assoc.
  - exists evs1. auto.
  - exists evs1. auto.
Qed.

Lemma orderly_weaken {A} (Q Q' : A -> Prop) (m : M A) :
  orderly P Q m -> (forall a, Q a -> Q' a) -> orderly P Q' m.
Proof.
  intros Hm HQ w. destruct (Hm w) as (evs & Htr & HP & Hst & Hout).
  exists evs. repeat split; try assumption.
  destruct (m w).2; auto.
Qed.

(** A step that logs one event, other than a write of a profile, and
    returns. *)
Lemma orderly_one {A} (Q : A -> Prop) (m : M A) ev :
  (forall cred name rgn, ev <> EvWriteProfile cred name rgn) ->
  P ev ->
  (forall w, exists a, Q a /\ trace (m w).1 = trace w ++ [ev] /\
                       store (m w).1 = store w /\ (m w).2 = Ret a) ->
  orderly P Q m.
Proof.
  intros Hev HP Hm w. destruct (Hm w) as (a & Ha & Htr & Hst & Hout).
  exists [ev]. rewrite Htr, Hst, Hout. repeat split; [by repeat constructor| |exact Ha].
  cbn. destruct ev; try reflexivity. exfalso. by eapply Hev.
Qed.

Lemma orderly_Printf text :
  P (EvStdout text) -> orderly P (fun _ => True) (Printf text).
Proof.
  intros HP. apply (orderly_one _ _ (EvStdout text)); [discriminate|exact HP|].
  intros w. by exists tt.
Qed.

Lemma orderly_die {A} (Q : A -> Prop) msg err :
  P (EvStderr (msg +:+ ": " +:+ err +:+ nl)) -> orderly P Q (die msg err).
Proof.
  intros HP w. exists [EvStderr (msg +:+ ": " +:+ err +:+ nl)].
  cbn. repeat split; [by repeat constructor|].
  by exists [], (msg +:+ ": " +:+ err +:+ nl).
Qed.

Lemma orderly_session_new src :
  (forall failure, P (EvNewSession src failure)) ->
  orderly P (fun r => forall sess, r = inr sess -> source sess = src) (session_new env src).
Proof.
  intros HP w. unfold session_new.
  destruct (session_failure env w src) as [err|].
  - exists [EvNewSession src (Some err)]. cbn.
    repeat split; [by repeat constructor|discriminate].
  - exists [EvNewSession src None]. cbn.
    repeat split; [by repeat constructor|]. intros sess [= <-]. reflexivity.
Qed.

Lemma orderly_Must (Q : Session -> Prop) r :
  (forall sess, r = inr sess -> Q sess) -> orderly P Q (Must r).
Proof.
  intros HQ. destruct r as [err|sess]; [apply orderly_panic|].
  apply orderly_ret. by apply HQ.
Qed.

Lemma orderly_GetCallerIdentity svc :
  (forall r, P (EvGetCallerIdentity svc r)) ->
  orderly P (fun _ => True) (GetCallerIdentity env svc).
Proof.
  intros HP. intros w. exists [EvGetCallerIdentity svc (sts_GetCallerIdentity env w svc)].
  cbn. repeat split. by repeat constructor.
Qed.

Lemma orderly_GetSessionToken svc i :
  (forall r, P (EvGetSessionToken svc i r)) ->
  orderly P (fun _ => True) (GetSessionToken env svc i).
Proof.
  intros HP. intros w. exists [EvGetSessionToken svc i (sts_GetSessionToken env w svc i)].
  cbn. repeat split. by repeat constructor.
Qed.

Lemma orderly_AssumeRole svc i :
  (forall r, P (EvAssumeRole svc i r)) ->
  orderly P (fun _ => True) (AssumeRole env svc i).
Proof.
  intros HP. intros w. exists [EvAssumeRole svc i (sts_AssumeRole env w svc i)].
  cbn. repeat split. by repeat constructor.
Qed.

Lemma orderly_ReadString_Stdin :
  (forall r, P (EvReadStdin r)) -> orderly P (fun _ => True) ReadString_Stdin.
Proof.
  intros HP w. unfold ReadString_Stdin.
  destruct (Go.ReadString (stdin w) LF) as [[line rest]|].
  - exists [EvReadStdin (Some line)]. cbn. repeat split. by repeat constructor.
  - exists [EvReadStdin None]. cbn. repeat split. by repeat constructor.
Qed.

Lemma orderly_os_Create path :
  (forall failure, P (EvCreate path failure)) ->
  orderly P (fun _ => True) (os_Create env path).
Proof.
  intros HP w. unfold os_Create.
  destruct (os_Create_failure env w path) as [err|].
  - exists [EvCreate path (Some err)]. cbn. repeat split. by repeat constructor.
  - exists [EvCreate path None]. cbn. repeat split. by repeat constructor.
Qed.

Lemma orderly_Fprintf_file path text :
  P (EvFileWrite path text) -> orderly P (fun _ => True) (Fprintf_file path text).
Proof.
  intros HP w. exists [EvFileWrite path text]. cbn. repeat split. by repeat constructor.
Qed.

Lemma orderly_time_Sleep d :
  P (EvSleep d) -> orderly P (fun _ => True) (time_Sleep d).
Proof.
  intros HP w. exists [EvSleep d]. cbn. repeat split. by repeat constructor.
Qed.

Lemma orderly_writeProfile cred name rgn :
  P (EvWriteProfile cred name rgn) ->
  orderly P (fun _ => True) (writeProfile cred name rgn).
Proof.
  intros HP w. exists [EvWriteProfile cred name rgn]. cbn. repeat split.
  by repeat constructor.
Qed.

End Orderly.

Section OrderlyTarget.

Variable env : Env.
Variable P : Event -> Prop.
Variable config : SwampConfig.

Hypothesis P_stderr : forall text, P (EvStderr text).
Hypothesis P_session : forall failure, P (EvNewSession (target_source config) failure).
Hypothesis P_identity :
  forall sess r, source sess = target_source config -> P (EvGetCallerIdentity sess r).
Hypothesis P_role :
  forall sess i r, source sess = target_source config -> P (EvAssumeRole sess i r).
Hypothesis P_write : forall cred rgn, P (EvWriteProfile cred (targetProfile config) rgn).
Hypothesis P_create : forall path failure, P (EvCreate path failure).
Hypothesis P_file : forall path text, P (EvFileWrite path text).
Hypothesis P_sleep : forall d, P (EvSleep d).

Lemma orderly_targetSession :
  orderly P (fun sess => source sess = target_source config) (targetSession env config).
Proof.
  pose proof P_session as HP. unfold targetSession. unfold target_source in HP |- *.
  destruct (useInstanceProfile config).
  - eapply orderly_bind; [apply orderly_session_new, HP|].
    intros r Hr. apply orderly_Must. exact Hr.
  - eapply orderly_bind; [apply orderly_session_new, HP|].
    intros r Hr. apply orderly_Must. exact Hr.
Qed.

Lemma orderly_getCallerId svc :
  source svc = target_source config ->
  orderly P (fun _ => True) (getCallerId env svc).
Proof.
  intros Hsvc. unfold getCallerId.
  eapply orderly_bind; [apply orderly_GetCallerIdentity; auto|].
  intros [err|output] _; [apply orderly_die, P_stderr|by apply orderly_ret].
Qed.

Lemma orderly_assumeRole svc arn name d :
  source svc = target_source config ->
  orderly P (fun _ => True) (assumeRole env svc arn name d).
Proof.
  intros Hsvc. unfold assumeRole.
  eapply orderly_bind; [apply orderly_AssumeRole; auto|].
  intros [err|cred] _; [apply orderly_die, P_stderr|by apply orderly_ret].
Qed.

Lemma orderly_ensureTargetProfile sess :
  source sess = target_source config ->
  orderly P (fun _ => True) (ensureTargetProfile env config sess).
Proof.
  intros Hsess. unfold ensureTargetProfile.
  eapply orderly_bind; [by apply orderly_getCallerId|]. intros output _.
  eapply orderly_bind with (Q := fun _ => True).
  { unfold deref. destruct (Arn output); [by apply orderly_ret|apply orderly_panic]. }
  intros userId _.
  eapply orderly_bind with (Q := fun _ => True).
  { unfold index. destruct (_ !! _); [by apply orderly_ret|apply orderly_panic]. }
  intros roleSessionName _.
  eapply orderly_bind; [by apply orderly_assumeRole|]. intros cred _.
  apply orderly_writeProfile, P_write.
Qed.

Lemma orderly_writeProfileToFile :
  orderly P (fun _ => True) (writeProfileToFile env config).
Proof.
  unfold writeProfileToFile.
  eapply orderly_bind; [apply orderly_os_Create; auto|].
  intros [err|] _; [apply orderly_die, P_stderr|apply orderly_Fprintf_file, P_file].
Qed.

(** The chain from the assume-role step on. *)
Lemma orderly_from_target :
  orderly P (fun _ => True)
    (sess <-- targetSession env config ;;
     ensureTargetProfile env config sess ;;;
     if exportProfile config then writeProfileToFile env config else ret tt).
Proof.
  eapply orderly_bind; [apply orderly_targetSession|]. intros sess Hsess.
  eapply orderly_bind; [by apply orderly_ensureTargetProfile|]. intros _ _.
  destruct (exportProfile config); [apply orderly_writeProfileToFile|by apply orderly_ret].
Qed.

Lemma orderly_main_loop n :
  orderly P (fun _ => True) (chain env config) ->
  orderly P (fun _ => True) (main_loop env n config).
Proof.
  intros Hchain. induction n as [|n IH]; cbn [main_loop]; [by apply orderly_ret|].
  eapply orderly_bind; [exact Hchain|]. intros _ _.
  destruct (renew config); cbn [negb]; [|by apply orderly_ret].
  eapply orderly_bind; [apply orderly_time_Sleep, P_sleep|]. intros _ _. exact IH.
Qed.

End OrderlyTarget.

Section OrderlyChain.

Variable env : Env.
Variable P : Event -> Prop.
Variable config : SwampConfig.

Hypothesis P_quiet : forall ev, is_write ev = false -> P ev.
Hypothesis P_writes : forall cred name rgn, P (EvWriteProfile cred name rgn).

Lemma orderly_getTokenCode serial :
  orderly P (fun _ => True) (getTokenCode serial).
Proof.
  unfold getTokenCode. case_bool_decide; [by apply orderly_ret|].
  eapply orderly_bind; [by apply orderly_Printf, P_quiet|]. intros _ _.
  eapply orderly_bind; [apply orderly_ReadString_Stdin; intros; by apply P_quiet|].
  intros [line|] _; [by apply orderly_ret|by apply orderly_die, P_quiet].
Qed.

Lemma orderly_validateSessionToken options :
  orderly P (fun _ => True) (validateSessionToken env options).
Proof.
  unfold validateSessionToken, NewSessionWithOptions.
  eapply orderly_bind; [apply orderly_session_new; intros; by apply P_quiet|].
  intros r _.
  eapply orderly_bind with (Q := fun _ => True); [by apply orderly_Must|]. intros sess _.
  eapply orderly_bind; [apply orderly_GetCallerIdentity; intros; by apply P_quiet|].
  intros r' _. by apply orderly_ret.
Qed.

Lemma orderly_getSessionToken options :
  orderly P (fun _ => True) (getSessionToken env options config).
Proof.
  unfold getSessionToken, NewSessionWithOptions.
  eapply orderly_bind; [apply orderly_session_new; intros; by apply P_quiet|].
  intros r _.
  eapply orderly_bind with (Q := fun _ => True); [by apply orderly_Must|]. intros sess _.
  eapply orderly_bind; [apply orderly_getTokenCode|]. intros code _.
  eapply orderly_bind; [apply orderly_GetSessionToken; intros; by apply P_quiet|].
  intros [err|cred] _; [by apply orderly_die, P_quiet|by apply orderly_ret].
Qed.

Lemma orderly_targetSession_quiet :
  orderly P (fun _ => True) (targetSession env config).
Proof.
  eapply orderly_weaken; [|done].
  apply orderly_targetSession. intros. by apply P_quiet.
Qed.

Lemma orderly_export_quiet :
  orderly P (fun _ => True)
    (if exportProfile config then writeProfileToFile env config else ret tt).
Proof.
  destruct (exportProfile config); [|by apply orderly_ret].
  apply orderly_writeProfileToFile; intros; by apply P_quiet.
Qed.

Lemma orderly_ensureSessionTokenProfile :
  orderly P (fun _ => True) (ensureSessionTokenProfile env config).
Proof.
  unfold ensureSessionTokenProfile.
  eapply orderly_bind; [apply orderly_validateSessionToken|].
  intros [|] _; [by apply orderly_Printf, P_quiet|].
  eapply orderly_bind; [apply orderly_getSessionToken|]. intros cred _.
  apply orderly_writeProfile, P_writes.
Qed.

Lemma orderly_chain : orderly P (fun _ => True) (chain env config).
Proof.
  unfold chain.
  eapply orderly_bind with (Q := fun _ => True).
  { case_bool_decide; [apply orderly_ensureSessionTokenProfile|by apply orderly_ret]. }
  intros _ _. apply orderly_from_target; intros; try apply P_writes; by apply P_quiet.
Qed.

Lemma orderly_loop n : orderly P (fun _ => True) (main_loop env n config).
Proof.
  apply orderly_main_loop; [intros; by apply P_quiet|apply orderly_chain].
Qed.

End OrderlyChain.

(** A step that writes no profile extends the trace and leaves the store
    as it was. *)
Lemma quiet_step {A} (Q : A -> Prop) (m : M A) w w' x :
  orderly (fun ev => is_write ev = false) Q m ->
  m w = (w', x) ->
  (exists evs, trace w' = trace w ++ evs) /\ store w' = store w.
Proof.
  intros Hm Hrun. destruct (Hm w) as (evs & Htrace & Hquiet & Hstore & _).
  rewrite Hrun in Htrace, Hstore. cbn [fst] in *. split; [by exists evs|].
  rewrite Hstore. clear -Hquiet. revert Hquiet. generalize (store w).
  induction evs as [|ev evs IH]; intros st Hquiet; [reflexivity|].
  inversion Hquiet as [|? ? Hev Hevs]; subst.
  cbn [replay foldl]. destruct ev; try discriminate Hev; apply (IH _ Hevs).
Qed.

(** ** What the functions do along each path *)

Lemma validateSessionToken_eq env options w :
  let sess := mkSession (WithOptions options) (Some (Region options)) in
  let w1 := log (EvNewSession (WithOptions options) None) w in
  validateSessionToken env options w =
  match session_failure env w (WithOptions options) with
  | Some err => (log (EvNewSession (WithOptions options) (Some err)) w, Panicked err)
  | None =>
      (log (EvGetCallerIdentity sess (sts_GetCallerIdentity env w1 sess)) w1,
       Ret (match sts_GetCallerIdentity env w1 sess with
            | inl _ => false
            | inr _ => true
            end))
  end.
Proof.
  cbv zeta. unfold validateSessionToken, bind, NewSessionWithOptions, session_new.
  destruct (session_failure env w (WithOptions options)) as [err|]; reflexivity.
Qed.

Lemma validateSessionToken_Ret env options w w1 valid :
  validateSessionToken env options w = (w1, Ret valid) ->
  exists r,
    w1 = log (EvGetCallerIdentity (mkSession (WithOptions options) (Some (Region options))) r)
           (log (EvNewSession (WithOptions options) None) w).
Proof.
  rewrite validateSessionToken_eq.
  destruct (session_failure env w (WithOptions options)) as [err|]; [discriminate|].
  intros [= <- _]. eauto.
Qed.

Lemma getTokenCode_eq serial w line rest :
  serial <> EmptyString ->
  Go.ReadString (stdin w) LF = Some (line, rest) ->
  getTokenCode serial w =
  (log (EvReadStdin (Some line))
     (set_stdin rest (log (EvStdout ("Enter mfa token for " +:+ serial +:+ ": ")) w)),
   Ret (Some (Go.Trim line mfa_cutset))).
Proof.
  intros Hserial Hread. unfold getTokenCode.
  rewrite bool_decide_false by exact Hserial.
  unfold bind, Printf, emit, ReadString_Stdin. cbn [log stdin].
  rewrite Hread. reflexivity.
Qed.

Lemma getSessionToken_eq env options config w line rest :
  tokenSerialNumber config <> EmptyString ->
  session_failure env w (WithOptions options) = None ->
  Go.ReadString (stdin w) LF = Some (line, rest) ->
  let sess := mkSession (WithOptions options) (Some (Region options)) in
  let i := mkGetSessionTokenInput (intermediateDuration config)
             (tokenSerialNumber config) (Some (Go.Trim line mfa_cutset)) in
  let w2 := log (EvReadStdin (Some line))
              (set_stdin rest
                 (log (EvStdout ("Enter mfa token for " +:+ tokenSerialNumber config +:+ ": "))
                    (log (EvNewSession (WithOptions options) None) w))) in
  getSessionToken env options config w =
  match sts_GetSessionToken env w2 sess i with
  | inl err =>
      (log (EvStderr ("Error getting session token: " +:+ err +:+ nl))
         (log (EvGetSessionToken sess i (inl err)) w2), Exited 1)
  | inr cred => (log (EvGetSessionToken sess i (inr cred)) w2, Ret cred)
  end.
Proof.
  intros Hserial Hsess Hread. cbv zeta.
  unfold getSessionToken, NewSessionWithOptions, session_new, bind at 1.
  rewrite Hsess. unfold bind at 1. cbn [Must]. unfold ret at 1.
  unfold bind at 1. rewrite (getTokenCode_eq _ _ line rest Hserial) by exact Hread.
  unfold bind at 1, GetSessionToken.
  destruct (sts_GetSessionToken env _ _ _) as [err|cred]; reflexivity.
Qed.

Lemma getSessionToken_Ret env options config w w' cred :
  getSessionToken env options config w = (w', Ret cred) ->
  exists wa sess i front,
    sts_GetSessionToken env wa sess i = inr cred /\
    trace w' = trace w ++ front ++ [EvGetSessionToken sess i (inr cred)] /\
    store w' = store w.
Proof.
  unfold getSessionToken. intros H.
  apply bind_Ret_inv in H as (r & w1 & Hnew & H).
  apply bind_Ret_inv in H as (sess & w2 & Hmust & H).
  apply bind_Ret_inv in H as (code & w3 & Hcode & H).
  apply bind_Ret_inv in H as (r' & w4 & Hcall & H).
  destruct (quiet_step _ _ _ _ _ (orderly_session_new env _ _ (fun _ => eq_refl)) Hnew)
    as [[evs1 Htr1] Hst1].
  assert (w2 = w1) as ->.
  { destruct r; [discriminate Hmust|]. by injection Hmust as <- _. }
  destruct (quiet_step _ _ _ _ _ (orderly_getTokenCode _ (fun _ H => H) _) Hcode)
    as [[evs2 Htr2] Hst2].
  unfold GetSessionToken in Hcall. injection Hcall as <- <-.
  destruct (sts_GetSessionToken env w3 sess _) as [err|cred'] eqn:Htoken.
  { unfold die, Fprintf_Stderr, emit, os_Exit, bind in H. discriminate H. }
  unfold ret in H. injection H as <- <-.
  eexists w3, sess, _, (evs1 ++ evs2). split; [exact Htoken|].
  norm_trace. rewrite Htr2, Htr1, Hst2, Hst1, <- !app_assoc. split; reflexivity.
Qed.

Lemma ensureSessionTokenProfile_renewed env config w w1 w2 :
  validateSessionToken env
    (mkOptions (region config) (intermediateProfile config)) w = (w1, Ret false) ->
  ensureSessionTokenProfile env config w = (w2, Ret tt) ->
  exists wa sess i cred front,
    sts_GetSessionToken env wa sess i = inr cred /\
    trace w2 = trace w ++ front ++
      [EvGetSessionToken sess i (inr cred);
       EvWriteProfile cred (intermediateProfile config) (Some (region config))] /\
    store w2 = <[intermediateProfile config := (cred, Some (region config))]> (store w).
Proof.
  intros Hvalid H. unfold ensureSessionTokenProfile in H.
  rewrite (bind_Ret _ _ _ _ _ Hvalid) in H.
  apply bind_Ret_inv in H as (cred & w3 & Htoken & H).
  destruct (getSessionToken_Ret _ _ _ _ _ _ Htoken)
    as (wa & sess & i & front & Hcall & Htr3 & Hst3).
  destruct (quiet_step _ _ _ _ _
              (orderly_validateSessionToken env _ (fun _ H => H) _) Hvalid)
    as [[evs1 Htr1] Hst1].
  unfold writeProfile in H. injection H as <-.
  exists wa, sess, i, cred, (evs1 ++ front). split; [exact Hcall|].
  norm_trace. rewrite Htr3, Htr1, Hst3, Hst1, <- !app_assoc. split; reflexivity.
Qed.

Lemma targetSession_Ret env config w w' sess :
  targetSession env config w = (w', Ret sess) -> store w' = store w.
Proof.
  unfold targetSession, NewSession, NewSessionWithOptions, session_new, bind.
  destruct (useInstanceProfile config);
    destruct (session_failure env w _); cbn [Must panic ret];
    unfold panic, ret; intros H; try discriminate H; by injection H as <- _.
Qed.

Lemma ensureTargetProfile_Ret env config sess w w' :
  ensureTargetProfile env config sess w = (w', Ret tt) ->
  exists output i cred,
    sts_AssumeRole env (log (EvGetCallerIdentity sess (inr output)) w) sess i = inr cred /\
    trace w' = trace w ++
      [EvGetCallerIdentity sess (inr output);
       EvAssumeRole sess i (inr cred);
       EvWriteProfile cred (targetProfile config) (Config_Region sess)] /\
    store w' = <[targetProfile config := (cred, Config_Region sess)]> (store w).
Proof.
  unfold ensureTargetProfile, getCallerId, GetCallerIdentity, bind at 1 2.
  destruct (sts_GetCallerIdentity env w sess) as [err|output].
  { unfold die, Fprintf_Stderr, emit, os_Exit, bind. discriminate. }
  unfold ret, bind at 1, deref.
  destruct (Arn output) as [userId|]; [|unfold panic; discriminate].
  unfold ret, bind at 1, index.
  destruct (_ !! _) as [roleSessionName|]; [|unfold panic; discriminate].
  unfold ret, bind at 1, assumeRole, AssumeRole, bind at 1.
  destruct (sts_AssumeRole env _ sess _) as [err|cred] eqn:Hrole.
  { unfold die, Fprintf_Stderr, emit, os_Exit, bind. discriminate. }
  unfold writeProfile. intros [= <-].
  exists output,
    (mkAssumeRoleInput (GetRoleArn config) roleSessionName (targetDuration config)), cred.
  split; [exact Hrole|]. split; [norm_trace; reflexivity|reflexivity].
Qed.

Lemma ensureTargetProfile_Exited env config sess w w' c :
  ensureTargetProfile env config sess w = (w', Exited c) ->
  c = 1 /\ store w' = store w.
Proof.
  unfold ensureTargetProfile, getCallerId, GetCallerIdentity, bind at 1 2.
  destruct (sts_GetCallerIdentity env w sess) as [err|output].
  { unfold die, Fprintf_Stderr, emit, os_Exit, bind. by intros [= <- <-]. }
  unfold ret, bind at 1, deref.
  destruct (Arn output) as [userId|]; [|unfold panic; discriminate].
  unfold ret, bind at 1, index.
  destruct (_ !! _) as [roleSessionName|]; [|unfold panic; discriminate].
  unfold ret, bind at 1, assumeRole, AssumeRole, bind at 1.
  destruct (sts_AssumeRole env _ sess _) as [err|cred].
  { unfold die, Fprintf_Stderr, emit, os_Exit, bind. by intros [= <- <-]. }
  unfold writeProfile. discriminate.
Qed.

Lemma writeProfileToFile_Ret env config w w' :
  writeProfileToFile env config w = (w', Ret tt) ->
  files w' !! exportFile config = Some (export_text (targetProfile config)).
Proof.
  unfold writeProfileToFile, bind, os_Create.
  destruct (os_Create_failure env w (exportFile config)) as [err|].
  - unfold die, bind, Fprintf_Stderr, emit, os_Exit. discriminate.
  - unfold Fprintf_file. intros H. injection H as <-.
    norm_trace. rewrite !lookup_insert_eq. cbn [default]. rewrite append_nil.
    reflexivity.
Qed.

Lemma chain_Ret_export env config w w' :
  exportProfile config = true ->
  chain env config w = (w', Ret tt) ->
  files w' !! exportFile config = Some (export_text (targetProfile config)).
Proof.
  intros Hexport H. unfold chain in H.
  apply bind_Ret_inv in H as (? & w1 & _ & H).
  apply bind_Ret_inv in H as (sess & w2 & _ & H).
  apply bind_Ret_inv in H as (? & w3 & _ & H).
  rewrite Hexport in H. exact (writeProfileToFile_Ret _ _ _ _ H).
Qed.

Lemma baseProfile_without_mfa config :
  tokenSerialNumber config = EmptyString -> baseProfile config = profile config.
Proof.
  intros Hserial. unfold baseProfile. rewrite bool_decide_false; [reflexivity|].
  intros Hne. exact (Hne Hserial).
Qed.

Lemma chain_without_mfa env config w :
  tokenSerialNumber config = EmptyString ->
  chain env config w =
  (sess_done <-- Spec.AssumeTarget env config ;; Spec.ExportMaybe env config) w.
Proof.
  intros Hserial. unfold chain, Spec.AssumeTarget, Spec.ExportMaybe, targetSession.
  rewrite (baseProfile_without_mfa _ Hserial).
  rewrite bool_decide_false by (intros Hne; exact (Hne Hserial)).
  rewrite bind_assoc. reflexivity.
Qed.

Lemma sleepDuration_in_range config :
  0 <= targetDuration config ->
  targetDuration config / 2 * 1000000000 < 2 ^ 63 ->
  sleepDuration config = targetDuration config / 2 * 1000000000 /\
  0 <= sleepDuration config.
Proof.
  intros Hpos Hfit. unfold sleepDuration, Go.int64_mul, Go.int64_div, Go.time_Second.
  rewrite Z.quot_div_nonneg by lia.
  assert (0 <= targetDuration config / 2) by (apply Z.div_pos; lia).
  rewrite wrap64_small by lia. lia.
Qed.

(** ** The intermediate hop (C1, C2, C3) *)

(** C1.  With an MFA device configured, a pass of the chain starts with
    the validation of the intermediate profile.  When the validator
    reports it valid, the only thing that happens before the assume-role
    step is the status line: no prompt, no read, no session-token request,
    no write to the store.  When it reports it invalid, a session is made
    on [config.profile], the operator is prompted with the configured
    device serial, and [GetSessionToken] is called on that session with
    the intermediate duration, the serial and the code typed; the
    credentials it returns are written under the intermediate profile
    name. *)
Theorem mfa_branch env config w w1 valid :
  tokenSerialNumber config <> EmptyString ->
  validateSessionToken env
    (mkOptions (region config) (intermediateProfile config)) w = (w1, Ret valid) ->
  (valid = true ->
   let w2 := log (EvStdout ("Session token for profile " +:+ profile config +:+
                            " is still valid" +:+ nl)) w1 in
   ensureSessionTokenProfile env config w = (w2, Ret tt) /\
   (exists r,
      trace w2 = trace w ++
        [EvNewSession (WithOptions (mkOptions (region config) (intermediateProfile config))) None;
         EvGetCallerIdentity
           (mkSession (WithOptions (mkOptions (region config) (intermediateProfile config)))
              (Some (region config))) r;
         EvStdout ("Session token for profile " +:+ profile config +:+
                   " is still valid" +:+ nl)]) /\
   store w2 = store w /\ stdin w2 = stdin w /\
   chain env config w =
   (sess <-- targetSession env config ;;
    ensureTargetProfile env config sess ;;;
    if exportProfile config then writeProfileToFile env config else ret tt) w2) /\
  (valid = false ->
   forall line rest cred,
     let base := mkOptions (region config) (profile config) in
     let sess := mkSession (WithOptions base) (Some (region config)) in
     let prompt := EvStdout ("Enter mfa token for " +:+ tokenSerialNumber config +:+ ": ") in
     let i := mkGetSessionTokenInput (intermediateDuration config)
                (tokenSerialNumber config) (Some (Go.Trim line mfa_cutset)) in
     let w2 := log (EvReadStdin (Some line))
                 (set_stdin rest (log prompt (log (EvNewSession (WithOptions base) None) w1))) in
     session_failure env w1 (WithOptions base) = None ->
     Go.ReadString (stdin w1) LF = Some (line, rest) ->
     sts_GetSessionToken env w2 sess i = inr cred ->
     exists w3,
       ensureSessionTokenProfile env config w = (w3, Ret tt) /\
       trace w3 = trace w1 ++
         [EvNewSession (WithOptions base) None; prompt; EvReadStdin (Some line);
          EvGetSessionToken sess i (inr cred);
          EvWriteProfile cred (intermediateProfile config) (Some (region config))] /\
       store w3 = <[intermediateProfile config := (cred, Some (region config))]> (store w1)).
Proof.
  intros Hserial Hvalid. split.
  - intros ->. cbv zeta.
    destruct (validateSessionToken_Ret _ _ _ _ _ Hvalid) as [r ->].
    assert (Hstep : ensureSessionTokenProfile env config w =
              (log (EvStdout ("Session token for profile " +:+ profile config +:+
                              " is still valid" +:+ nl))
                 (log (EvGetCallerIdentity
                         (mkSession
                            (WithOptions (mkOptions (region config) (intermediateProfile config)))
                            (Some (region config))) r)
                    (log (EvNewSession
                            (WithOptions (mkOptions (region config) (intermediateProfile config)))
                            None) w)), Ret tt)).
    { unfold ensureSessionTokenProfile. rewrite (bind_Ret _ _ _ _ _ Hvalid). reflexivity. }
    split; [exact Hstep|]. split.
    { exists r. norm_trace. reflexivity. }
    split; [reflexivity|]. split; [reflexivity|].
    unfold chain. rewrite bool_decide_true by exact Hserial.
    rewrite (bind_Ret _ _ _ _ _ Hstep). reflexivity.
  - intros ->. cbv zeta. intros line rest cred Hsess Hread Htoken.
    eexists. split.
    + unfold ensureSessionTokenProfile. rewrite (bind_Ret _ _ _ _ _ Hvalid).
      erewrite bind_Ret.
      2:{ rewrite (getSessionToken_eq _ _ _ _ line rest Hserial Hsess Hread).
          cbn [Region]. rewrite Htoken. reflexivity. }
      reflexivity.
    + split; [norm_trace; reflexivity|]. reflexivity.
Qed.

Lemma mfa_branch_sample :
  let valid_opts := mkOptions "eu-central-1" "session-token" in
  let valid_sess := mkSession (WithOptions valid_opts) (Some "eu-central-1") in
  let warm := set_store {[ "session-token" := (Sample.session_cred, Some "eu-central-1") ]}
                Sample.start in
  let base_sess := mkSession (WithOptions (mkOptions "eu-central-1" "default"))
                     (Some "eu-central-1") in
  (exists r,
     trace (ensureSessionTokenProfile Sample.provider Sample.config warm).1 =
     [EvNewSession (WithOptions valid_opts) None;
      EvGetCallerIdentity valid_sess r;
      EvStdout ("Session token for profile default is still valid" +:+ nl)]) /\
  (exists w3,
     ensureSessionTokenProfile Sample.provider Sample.config Sample.start = (w3, Ret tt) /\
     trace w3 =
       [EvNewSession (WithOptions valid_opts) None;
        EvGetCallerIdentity valid_sess (inl "ExpiredToken")] ++
       [EvNewSession (WithOptions (mkOptions "eu-central-1" "default")) None;
        EvStdout "Enter mfa token for arn:aws:iam::123:mfa/alice: ";
        EvReadStdin (Some ("123456" +:+ nl));
        EvGetSessionToken base_sess
          (mkGetSessionTokenInput 43200 "arn:aws:iam::123:mfa/alice" (Some "123456"))
          (inr Sample.session_cred);
        EvWriteProfile Sample.session_cred "session-token" (Some "eu-central-1")] /\
     store w3 = <["session-token" := (Sample.session_cred, Some "eu-central-1")]> ∅).
Proof.
  cbv zeta. split.
  - destruct (mfa_branch Sample.provider Sample.config
                (set_store {[ "session-token" := (Sample.session_cred, Some "eu-central-1") ]}
                   Sample.start)
                (validateSessionToken Sample.provider (mkOptions "eu-central-1" "session-token")
                   (set_store
                      {[ "session-token" := (Sample.session_cred, Some "eu-central-1") ]}
                      Sample.start)).1
                true) as [Hvalid _].
    + discriminate.
    + vm_compute. reflexivity.
    + destruct (Hvalid eq_refl) as (Hrun & [r Htrace] & _).
      exists r. rewrite Hrun. exact Htrace.
  - destruct (mfa_branch Sample.provider Sample.config Sample.start
                (validateSessionToken Sample.provider (mkOptions "eu-central-1" "session-token")
                   Sample.start).1
                false) as [_ Hinvalid].
    + discriminate.
    + vm_compute. reflexivity.
    + exact (Hinvalid eq_refl ("123456" +:+ nl) EmptyString Sample.session_cred
               eq_refl eq_refl eq_refl).
Defined.

(** C2.  When the MFA device serial is empty, [baseProfile] stays the
    configured profile and the loop is, pass for pass, the loop that only
    has the states AssumeTarget, ExportMaybe and the loop decision; in
    any number of passes no event of the intermediate states happens: the
    intermediate profile is not validated, the operator is not prompted,
    no session token is asked for. *)
Theorem no_mfa_skips_intermediate env config n w :
  tokenSerialNumber config = EmptyString ->
  baseProfile config = profile config /\
  main_loop env n config w = Spec.target_only_loop env n config w /\
  exists evs,
    trace (main_loop env n config w).1 = trace w ++ evs /\
    Forall (fun ev => Spec.intermediate_event config ev = false) evs.
Proof.
  intros Hserial. split; [exact (baseProfile_without_mfa _ Hserial)|]. split.
  - revert w. induction n as [|n IH]; intros w; [reflexivity|].
    cbn [main_loop Spec.target_only_loop].
    apply bind_ext; [exact (chain_without_mfa _ _ _ Hserial)|].
    intros _ w1. destruct (renew config); cbn [negb]; [|reflexivity].
    apply bind_ext; [reflexivity|]. intros _ w2. apply IH.
  - assert (Hsrc : Spec.base_source config (target_source config) = true).
    { unfold target_source, Spec.base_source.
      destruct (useInstanceProfile config); [reflexivity|].
      cbn [negb andb Region Profile]. apply bool_decide_eq_true.
      split; [reflexivity|]. exact (baseProfile_without_mfa _ Hserial). }
    set (P := fun ev => Spec.intermediate_event config ev = false).
    assert (Hsession : forall failure, P (EvNewSession (target_source config) failure)).
    { intros failure. unfold P. cbn [Spec.intermediate_event]. by rewrite Hsrc. }
    assert (Hidentity : forall sess r,
               source sess = target_source config -> P (EvGetCallerIdentity sess r)).
    { intros sess r Hsess. unfold P. cbn [Spec.intermediate_event]. by rewrite Hsess, Hsrc. }
    assert (Hrole : forall sess i r,
               source sess = target_source config -> P (EvAssumeRole sess i r)).
    { intros sess i r Hsess. unfold P. cbn [Spec.intermediate_event]. by rewrite Hsess, Hsrc. }
    assert (Hwrite : forall cred rgn, P (EvWriteProfile cred (targetProfile config) rgn)).
    { intros cred rgn. unfold P. cbn [Spec.intermediate_event].
      apply bool_decide_eq_false. by intros Hne. }
    assert (Hchain : orderly P (fun _ => True) (chain env config)).
    { unfold chain.
      rewrite bool_decide_false by (intros Hne; exact (Hne Hserial)).
      eapply orderly_bind with (Q := fun _ => True); [by apply orderly_ret|].
      intros _ _. by apply orderly_from_target. }
    destruct (orderly_main_loop env P config (fun _ => eq_refl) n Hchain w)
      as (evs & Htrace & Hevs & _).
    exists evs. split; assumption.
Qed.

Lemma no_mfa_sample :
  baseProfile (Sample.without_mfa (Sample.with_renew Sample.config)) = "default" /\
  main_loop Sample.provider 3 (Sample.without_mfa (Sample.with_renew Sample.config))
    Sample.start =
  Spec.target_only_loop Sample.provider 3
    (Sample.without_mfa (Sample.with_renew Sample.config)) Sample.start /\
  exists evs,
    trace (main_loop Sample.provider 3
             (Sample.without_mfa (Sample.with_renew Sample.config)) Sample.start).1 =
    trace Sample.start ++ evs /\
    Forall (fun ev =>
              Spec.intermediate_event
                (Sample.without_mfa (Sample.with_renew Sample.config)) ev = false) evs.
Proof.
  apply (no_mfa_skips_intermediate Sample.provider
           (Sample.without_mfa (Sample.with_renew Sample.config)) 3 Sample.start).
  reflexivity.
Defined.

(** C3.  When a pass of the chain completes, the credentials written
    under the target profile name are the very credentials [AssumeRole]
    returned: the write follows the call at once, with the same value,
    and the store holds it under the target profile name.  When the
    intermediate profile was renewed in that pass, the credentials written
    under the intermediate profile name are the very credentials
    [GetSessionToken] returned, and the store still holds them under that
    name at the end of the pass when the two profile names differ. *)
Theorem persisted_credentials env config w w' :
  chain env config w = (w', Ret tt) ->
  (exists wa sess i cred front back,
     sts_AssumeRole env wa sess i = inr cred /\
     trace w' = front ++
       [EvAssumeRole sess i (inr cred);
        EvWriteProfile cred (targetProfile config) (Config_Region sess)] ++ back /\
     store w' !! targetProfile config = Some (cred, Config_Region sess)) /\
  (forall w1,
     tokenSerialNumber config <> EmptyString ->
     validateSessionToken env
       (mkOptions (region config) (intermediateProfile config)) w = (w1, Ret false) ->
     exists wa sess i cred front back,
       sts_GetSessionToken env wa sess i = inr cred /\
       trace w' = front ++
         [EvGetSessionToken sess i (inr cred);
          EvWriteProfile cred (intermediateProfile config) (Some (region config))] ++ back /\
       (intermediateProfile config <> targetProfile config ->
        store w' !! intermediateProfile config = Some (cred, Some (region config)))).
Proof.
  intros H. unfold chain in H.
  apply bind_Ret_inv in H as ([] & wA & Hmfa & H).
  apply bind_Ret_inv in H as (sess & wB & Hsession & H).
  apply bind_Ret_inv in H as ([] & wC & Htarget & Hexport).
  destruct (quiet_step _ _ _ _ _
              (orderly_targetSession_quiet env _ config (fun _ H => H)) Hsession)
    as [[evs1 Htr1] Hst1].
  destruct (ensureTargetProfile_Ret _ _ _ _ _ Htarget)
    as (output & i & cred & Hrole & Htr2 & Hst2).
  destruct (quiet_step _ _ _ _ _
              (orderly_export_quiet env _ config (fun _ H => H)) Hexport)
    as [[evs2 Htr3] Hst3].
  split.
  - exists (log (EvGetCallerIdentity sess (inr output)) wB), sess, i, cred,
      (trace wB ++ [EvGetCallerIdentity sess (inr output)]), evs2.
    split; [exact Hrole|]. split.
    + rewrite Htr3, Htr2, <- !app_assoc. reflexivity.
    + rewrite Hst3, Hst2. apply lookup_insert_eq.
  - intros w1 Hserial Hvalid.
    rewrite bool_decide_true in Hmfa by exact Hserial.
    destruct (ensureSessionTokenProfile_renewed _ _ _ _ _ Hvalid Hmfa)
      as (wa & sess' & i' & cred' & front & Hcall & Htr0 & Hst0).
    exists wa, sess', i', cred', (trace w ++ front),
      (evs1 ++ [EvGetCallerIdentity sess (inr output);
                EvAssumeRole sess i (inr cred);
                EvWriteProfile cred (targetProfile config) (Config_Region sess)] ++ evs2).
    split; [exact Hcall|]. split.
    + rewrite Htr3, Htr2, Htr1, Htr0, <- !app_assoc. reflexivity.
    + intros Hnames. rewrite Hst3, Hst2, lookup_insert_ne by congruence.
      rewrite Hst1, Hst0. apply lookup_insert_eq.
Qed.

Lemma persisted_credentials_sample :
  let w' := (chain Sample.provider Sample.config Sample.start).1 in
  (exists wa sess i cred front back,
     sts_AssumeRole Sample.provider wa sess i = inr cred /\
     trace w' = front ++
       [EvAssumeRole sess i (inr cred);
        EvWriteProfile cred "swamp" (Config_Region sess)] ++ back /\
     store w' !! "swamp" = Some (cred, Config_Region sess)) /\
  (exists wa sess i cred front back,
     sts_GetSessionToken Sample.provider wa sess i = inr cred /\
     trace w' = front ++
       [EvGetSessionToken sess i (inr cred);
        EvWriteProfile cred "session-token" (Some "eu-central-1")] ++ back /\
     ("session-token" <> "swamp" ->
      store w' !! "session-token" = Some (cred, Some "eu-central-1"))).
Proof.
  cbv zeta.
  destruct (persisted_credentials Sample.provider Sample.config Sample.start
              (chain Sample.provider Sample.config Sample.start).1)
    as [Htarget Hintermediate].
  - vm_compute. reflexivity.
  - split; [exact Htarget|].
    apply (Hintermediate
             (validateSessionToken Sample.provider
                (mkOptions "eu-central-1" "session-token") Sample.start).1).
    + discriminate.
    + vm_compute. reflexivity.
Defined.

(** ** Fatal errors (C4) *)

(** C4.  A provider error in the caller-identity lookup of the
    assume-role step, in the session-token request or in the role
    assumption ends the process there: a line on the error stream, exit
    code 1, nothing run after it.  However the loop exits, the code is 1,
    the last event is a line on the error stream, and the credentials
    store is the one the process started with plus every profile write
    made before: nothing is rolled back.  In particular a role assumption
    that fails after the intermediate profile was renewed leaves the
    renewed intermediate profile in the store; and a pass that exits ends
    the loop in the very world of the exit: nothing is tried again. *)
Theorem fatal_provider_errors env config :
  (forall sess w err,
     sts_GetCallerIdentity env w sess = inl err ->
     ensureTargetProfile env config sess w =
     (log (EvStderr ("Error fetching caller id: " +:+ err +:+ nl))
        (log (EvGetCallerIdentity sess (inl err)) w), Exited 1)) /\
  (forall options w code w2 err,
     session_failure env w (WithOptions options) = None ->
     let sess := mkSession (WithOptions options) (Some (Region options)) in
     let i := mkGetSessionTokenInput (intermediateDuration config)
                (tokenSerialNumber config) code in
     getTokenCode (tokenSerialNumber config)
       (log (EvNewSession (WithOptions options) None) w) = (w2, Ret code) ->
     sts_GetSessionToken env w2 sess i = inl err ->
     getSessionToken env options config w =
     (log (EvStderr ("Error getting session token: " +:+ err +:+ nl))
        (log (EvGetSessionToken sess i (inl err)) w2), Exited 1)) /\
  (forall sess w arn name d err,
     sts_AssumeRole env w sess (mkAssumeRoleInput arn name d) = inl err ->
     assumeRole env sess arn name d w =
     (log (EvStderr ("Error assuming role: " +:+ err +:+ nl))
        (log (EvAssumeRole sess (mkAssumeRoleInput arn name d) (inl err)) w), Exited 1)) /\
  (forall n w w' c,
     main_loop env n config w = (w', Exited c) ->
     c = 1 /\
     exists evs text,
       trace w' = trace w ++ evs ++ [EvStderr text] /\
       store w' = replay evs (store w)) /\
  (forall w w1 w2 sess w' c,
     ensureSessionTokenProfile env config w = (w1, Ret tt) ->
     targetSession env config w1 = (w2, Ret sess) ->
     ensureTargetProfile env config sess w2 = (w', Exited c) ->
     tokenSerialNumber config <> EmptyString ->
     chain env config w = (w', Exited 1) /\ store w' = store w1) /\
  (forall n w w' c,
     chain env config w = (w', Exited c) ->
     main_loop env (S n) config w = (w', Exited c)).
Proof.
  repeat apply conj.
  - intros sess w err Herr.
    unfold ensureTargetProfile, getCallerId, GetCallerIdentity, bind at 1 2.
    rewrite Herr. reflexivity.
  - intros options w code w2 err Hsess sess i Hcode Herr.
    unfold getSessionToken, NewSessionWithOptions, session_new, bind at 1.
    rewrite Hsess. unfold bind at 1. cbn [Must]. unfold ret at 1.
    unfold bind at 1. fold sess. rewrite Hcode.
    unfold bind at 1, GetSessionToken. fold i. rewrite Herr. reflexivity.
  - intros sess w arn name d err Herr.
    unfold assumeRole, AssumeRole, bind at 1. rewrite Herr. reflexivity.
  - intros n w w' c Hexit.
    destruct (orderly_loop env (fun _ => True) config (fun _ _ => I) (fun _ _ _ => I) n w)
      as (evs & Htrace & _ & Hstore & Hout).
    rewrite Hexit in Htrace, Hstore, Hout. cbn [fst snd] in *.
    destruct Hout as (-> & evs0 & text & ->). split; [reflexivity|].
    exists evs0, text. split; [exact Htrace|].
    rewrite Hstore, replay_app. reflexivity.
  - intros w w1 w2 sess w' c Hmfa Hsession Htarget Hserial.
    destruct (ensureTargetProfile_Exited _ _ _ _ _ _ Htarget) as [-> Hstore].
    split.
    + unfold chain. rewrite bool_decide_true by exact Hserial.
      rewrite (bind_Ret _ _ _ _ _ Hmfa), (bind_Ret _ _ _ _ _ Hsession).
      exact (bind_Exited _ _ _ _ _ Htarget).
    + rewrite Hstore. exact (targetSession_Ret _ _ _ _ _ Hsession).
  - intros n w w' c Hexit. cbn [main_loop]. exact (bind_Exited _ _ _ _ _ Hexit).
Qed.

Lemma fatal_provider_errors_sample :
  let unknown :=
    mkSession (WithOptions (mkOptions "eu-central-1" "nobody")) (Some "eu-central-1") in
  let known := mkSession Default (Some "eu-central-1") in
  let w' := (chain Sample.no_role Sample.config Sample.start).1 in
  (ensureTargetProfile Sample.no_role Sample.config unknown Sample.start).2 = Exited 1 /\
  (getSessionToken Sample.no_role (mkOptions "eu-central-1" "nobody") Sample.config
     Sample.start).2 = Exited 1 /\
  (assumeRole Sample.no_role known "arn:aws:iam::456:role/admin" "alice" 3600
     Sample.start).2 = Exited 1 /\
  (exists evs text,
     trace (main_loop Sample.no_role 2 Sample.config Sample.start).1 =
       trace Sample.start ++ evs ++ [EvStderr text] /\
     store (main_loop Sample.no_role 2 Sample.config Sample.start).1 =
       replay evs (store Sample.start)) /\
  chain Sample.no_role Sample.config Sample.start = (w', Exited 1) /\
  store w' !! "session-token" = Some (Sample.session_cred, Some "eu-central-1") /\
  main_loop Sample.no_role 3 Sample.config Sample.start = (w', Exited 1).
Proof.
  cbv zeta.
  destruct (fatal_provider_errors Sample.no_role Sample.config)
    as (Hidentity & Htoken & Hrole & Hloop & Hkept & Hstop).
  split; [|split; [|split; [|split]]].
  - rewrite (Hidentity
               (mkSession (WithOptions (mkOptions "eu-central-1" "nobody")) (Some "eu-central-1"))
               Sample.start "ExpiredToken" eq_refl).
    reflexivity.
  - rewrite (Htoken (mkOptions "eu-central-1" "nobody") Sample.start (Some "123456")
               (getTokenCode (tokenSerialNumber Sample.config)
                  (log (EvNewSession (WithOptions (mkOptions "eu-central-1" "nobody")) None)
                     Sample.start)).1
               "AccessDenied" eq_refl eq_refl eq_refl).
    reflexivity.
  - rewrite (Hrole (mkSession Default (Some "eu-central-1")) Sample.start
               "arn:aws:iam::456:role/admin" "alice" 3600 "AccessDenied" eq_refl).
    reflexivity.
  - apply (Hloop 2%nat Sample.start _ 1). vm_compute. reflexivity.
  - destruct (Hkept Sample.start
                (ensureSessionTokenProfile Sample.no_role Sample.config Sample.start).1
                (targetSession Sample.no_role Sample.config
                   (ensureSessionTokenProfile Sample.no_role Sample.config Sample.start).1).1
                (mkSession (WithOptions (mkOptions "eu-central-1" "session-token"))
                   (Some "eu-central-1"))
                (chain Sample.no_role Sample.config Sample.start).1 1)
      as [Hchain Hstore].
    + vm_compute. reflexivity.
    + vm_compute. reflexivity.
    + vm_compute. reflexivity.
    + discriminate.
    + split; [exact Hchain|]. split; [rewrite Hstore; vm_compute; reflexivity|].
      exact (Hstop 2%nat _ _ _ Hchain).
Defined.

(** ** The renewal scheduler (C5) *)

(** C5, as the code has it.  After a pass of the chain the loop does what
    [NextAction] of the renew flag and of the target duration says: it
    stops when renew is off, whatever the duration; when renew is on, and
    the duration is not negative and half of it, counted in nanoseconds,
    fits an [int64], it sleeps exactly [targetDuration / 2] seconds and
    runs the chain again. *)
Theorem loop_follows_NextAction env config n w :
  (renew config = true ->
   0 <= targetDuration config /\ targetDuration config / 2 * 1000000000 < 2 ^ 63) ->
  main_loop env (S n) config w =
  (chain env config ;;;
   Spec.perform (Spec.NextAction (renew config) (targetDuration config))
     (main_loop env n config)) w.
Proof.
  intros Hrange. cbn [main_loop]. unfold bind at 1 3.
  destruct (chain env config w) as [w1 [[]|c|e]]; try reflexivity.
  unfold Spec.NextAction. destruct (renew config); [|reflexivity].
  destruct (Hrange eq_refl) as [Hpos Hfit].
  destruct (sleepDuration_in_range config Hpos Hfit) as [Hd Hd0].
  cbn [negb Spec.perform]. unfold bind, time_Sleep, Spec.sleep_seconds.
  rewrite Z.max_r by exact Hd0. rewrite Hd. reflexivity.
Qed.

Lemma loop_follows_NextAction_3600 :
  main_loop Sample.provider 1 (Sample.with_renew Sample.config) Sample.start =
  (chain Sample.provider (Sample.with_renew Sample.config) ;;;
   Spec.perform (Spec.Repeat 1800) (main_loop Sample.provider 0 (Sample.with_renew Sample.config)))
    Sample.start.
Proof.
  apply (loop_follows_NextAction Sample.provider (Sample.with_renew Sample.config) 0
           Sample.start).
  intros _. split; [vm_compute; discriminate | vm_compute; reflexivity].
Defined.

(** C5, as the claim has it (the sleep is half the duration for every
    duration), fails for a duration whose half does not fit an [int64]
    count of nanoseconds: for 2^35 seconds the product wraps to a
    negative [time.Duration] and [time.Sleep] returns at once. *)
Lemma sleep_wraps_for_long_durations :
  let config := Sample.with_targetDuration 34359738368 (Sample.with_renew Sample.config) in
  Spec.NextAction (renew config) (targetDuration config) = Spec.Repeat 17179869184 /\
  sleepDuration config = -1266874889709551616 /\
  clock (main_loop Sample.provider 1 config Sample.start).1 = 0 /\
  main_loop Sample.provider 1 config Sample.start <>
  (chain Sample.provider config ;;;
   Spec.perform (Spec.NextAction (renew config) (targetDuration config))
     (main_loop Sample.provider 0 config)) Sample.start.
Proof.
  cbv zeta. split; [reflexivity|]. split; [reflexivity|]. split; [reflexivity|].
  intros H. apply (f_equal (fun r => clock r.1)) in H.
  vm_compute in H. discriminate H.
Qed.

(** ** The validator (C6) *)

(** C6, as the code has it.  [validateSessionToken] makes a session and
    looks the caller identity up.  When the session can be made, it
    returns [true] if the lookup succeeds and [false] on any error of the
    lookup; when the session cannot be made, [session.Must] panics.  In
    both cases the credentials store, the files and the input of the
    operator are left as they were, and nothing is printed or read. *)
Theorem validator_classifies env options w :
  let sess := mkSession (WithOptions options) (Some (Region options)) in
  let w1 := log (EvNewSession (WithOptions options) None) w in
  let r := validateSessionToken env options w in
  match session_failure env w (WithOptions options) with
  | Some err =>
      r = (log (EvNewSession (WithOptions options) (Some err)) w, Panicked err)
  | None =>
      r = (log (EvGetCallerIdentity sess (sts_GetCallerIdentity env w1 sess)) w1,
           Ret (match sts_GetCallerIdentity env w1 sess with
                | inl _ => false
                | inr _ => true
                end))
  end /\
  store r.1 = store w /\ files r.1 = files w /\ stdin r.1 = stdin w /\
  exists evs, trace r.1 = trace w ++ evs /\ forallb (fun ev => negb (is_prompt ev)) evs = true.
Proof.
  cbv zeta.
  unfold validateSessionToken, bind, NewSessionWithOptions, session_new.
  destruct (session_failure env w (WithOptions options)) as [err|];
    unfold Must, panic, ret, GetCallerIdentity.
  - repeat split. eexists [_]. split; reflexivity.
  - repeat split. eexists [_; _]. norm_trace. split; reflexivity.
Qed.

(** C6, as the claim has it ("for every input it never raises"), fails
    where no session can be made: the validator panics. *)
Lemma validator_can_panic :
  ~ exists valid,
      (validateSessionToken Sample.broken_file (mkOptions "eu-central-1" "session-token")
         Sample.start).2 = Ret valid.
Proof. intros [valid H]. discriminate H. Qed.

(** ** The export file (C7) *)

(** C7.  With export enabled, once the loop has completed its passes
    (one pass and the [break], or any number of passes with renewal), the
    export file holds exactly the text [writeProfileToFile] formats for
    the target profile, whatever it held before and however many passes
    there were; that text is the three lines of the descriptor. *)
Theorem export_file_is_three_lines env config n w w' e :
  exportProfile config = true ->
  main_loop env (S n) config w = (w', Ret e) ->
  files w' !! exportFile config =
    Some ("export AWS_PROFILE=" +:+ targetProfile config +:+ nl +:+
          "unset AWS_ACCESS_KEY_ID" +:+ nl +:+
          "unset AWS_SECRET_ACCESS_KEY" +:+ nl) /\
  (Go.byte_in LF (targetProfile config) = false ->
   Go.Split (export_text (targetProfile config)) LF =
   ["export AWS_PROFILE=" +:+ targetProfile config;
    "unset AWS_ACCESS_KEY_ID";
    "unset AWS_SECRET_ACCESS_KEY";
    EmptyString]).
Proof.
  intros Hexport Hloop. split; [|apply export_text_lines].
  change (files w' !! exportFile config = Some (export_text (targetProfile config))).
  revert w Hloop. induction n as [|n IH]; intros w Hloop.
  - cbn [main_loop] in Hloop.
    apply bind_Ret_inv in Hloop as ([] & w1 & Hchain & Hrest).
    pose proof (chain_Ret_export _ _ _ _ Hexport Hchain) as Hfile.
    destruct (renew config); cbn [negb] in Hrest.
    + unfold bind, time_Sleep, ret in Hrest. injection Hrest as <- _. exact Hfile.
    + unfold ret in Hrest. injection Hrest as <- _. exact Hfile.
  - remember (S n) as m eqn:Hm. cbn [main_loop] in Hloop.
    apply bind_Ret_inv in Hloop as ([] & w1 & Hchain & Hrest).
    destruct (renew config); cbn [negb] in Hrest.
    + apply bind_Ret_inv in Hrest as ([] & w2 & _ & Hrest).
      subst m. exact (IH _ Hrest).
    + unfold ret in Hrest. injection Hrest as <- _.
      exact (chain_Ret_export _ _ _ _ Hexport Hchain).
Qed.

Lemma export_file_sample :
  files (main_loop Sample.provider 3 (Sample.with_renew Sample.config) Sample.start).1
    !! "/tmp/out" =
    Some ("export AWS_PROFILE=swamp" +:+ nl +:+
          "unset AWS_ACCESS_KEY_ID" +:+ nl +:+
          "unset AWS_SECRET_ACCESS_KEY" +:+ nl) /\
  (Go.byte_in LF "swamp" = false ->
   Go.Split (export_text "swamp") LF =
   ["export AWS_PROFILE=swamp"; "unset AWS_ACCESS_KEY_ID";
    "unset AWS_SECRET_ACCESS_KEY"; EmptyString]).
Proof.
  apply (export_file_is_three_lines Sample.provider (Sample.with_renew Sample.config) 2
           Sample.start _ StillLooping).
  - reflexivity.
  - vm_compute. reflexivity.
Defined.

(** ** The role session name (C8) *)

(** C8.  Whatever identity reference the provider returns, the role
    session name that [ensureTargetProfile] passes to [AssumeRole] is the
    tail segment of that reference: the substring after its last [/], the
    whole reference when it has none. *)
Theorem role_session_name_is_tail_segment env config sess w arn :
  sts_GetCallerIdentity env w sess = inr (mkIdentity (Some arn)) ->
  exists r rest,
    trace (ensureTargetProfile env config sess w).1 =
    trace w ++
      EvGetCallerIdentity sess (inr (mkIdentity (Some arn))) ::
      EvAssumeRole sess
        (mkAssumeRoleInput (GetRoleArn config) (Spec.tail_segment arn)
           (targetDuration config)) r :: rest.
Proof.
  intros Hid.
  unfold ensureTargetProfile, getCallerId, GetCallerIdentity, bind at 1 2.
  rewrite Hid. cbn [ret deref Arn].
  unfold bind at 1. cbn [ret].
  unfold bind at 1, index. rewrite Split_lookup_last. cbn [ret].
  unfold bind at 1, assumeRole, AssumeRole, bind at 1.
  destruct (sts_AssumeRole _ _ _ _) as [err|cred] eqn:Hrole.
  - eexists (inl err), _. unfold die, Fprintf_Stderr, emit, os_Exit, bind.
    norm_trace. reflexivity.
  - eexists (inr cred), _. unfold ret, writeProfile.
    norm_trace. reflexivity.
Qed.

Lemma role_session_name_alice :
  exists r rest,
    trace (ensureTargetProfile Sample.provider Sample.config
             (mkSession Default (Some "eu-central-1")) Sample.start).1 =
    trace Sample.start ++
      EvGetCallerIdentity (mkSession Default (Some "eu-central-1")) (inr Sample.alice) ::
      EvAssumeRole (mkSession Default (Some "eu-central-1"))
        (mkAssumeRoleInput "arn:aws:iam::456:role/admin" "alice" 3600) r :: rest.
Proof.
  exact (role_session_name_is_tail_segment Sample.provider Sample.config
           (mkSession Default (Some "eu-central-1")) Sample.start
           "arn:aws:iam::123:user/alice" eq_refl).
Defined.

(** ** The status line and the MFA code (C9, C10) *)

(** C9.  When the session token of the intermediate profile is found
    valid, the status line that is printed names [config.profile], the
    base profile, although the credentials that were tried are those of
    [config.intermediateProfile]. *)
Theorem still_valid_message_names_base_profile env config w w1 :
  validateSessionToken env
    (mkOptions (region config) (intermediateProfile config)) w = (w1, Ret true) ->
  ensureSessionTokenProfile env config w =
    (log (EvStdout ("Session token for profile " +:+ profile config +:+
                    " is still valid" +:+ nl)) w1, Ret tt) /\
  (profile config <> intermediateProfile config ->
   "Session token for profile " +:+ profile config +:+ " is still valid" +:+ nl <>
   "Session token for profile " +:+ intermediateProfile config +:+ " is still valid" +:+ nl).
Proof.
  intros Hvalid. split.
  - unfold ensureSessionTokenProfile. rewrite (bind_Ret _ _ _ _ _ Hvalid).
    reflexivity.
  - intros Hne Heq. apply Hne.
    apply (inj (String.app _)) in Heq.
    exact (append_cancel_r _ _ _ Heq).
Qed.

Lemma still_valid_message_sample :
  ensureSessionTokenProfile Sample.provider Sample.config
    (set_store {[ "session-token" := (Sample.session_cred, Some "eu-central-1") ]} Sample.start) =
    (log (EvStdout ("Session token for profile default is still valid" +:+ nl))
       (validateSessionToken Sample.provider (mkOptions "eu-central-1" "session-token")
          (set_store {[ "session-token" := (Sample.session_cred, Some "eu-central-1") ]}
             Sample.start)).1,
     Ret tt) /\
  ("default" <> "session-token" ->
   "Session token for profile default is still valid" +:+ nl <>
   "Session token for profile session-token is still valid" +:+ nl).
Proof.
  apply (still_valid_message_names_base_profile Sample.provider Sample.config
           (set_store {[ "session-token" := (Sample.session_cred, Some "eu-central-1") ]}
              Sample.start)).
  vm_compute. reflexivity.
Defined.

(** C10.  When the line the operator types has nothing but spaces,
    carriage returns and newlines in it, [getTokenCode] returns the empty
    string (a code, not [nil]), and [getSessionToken] goes on to call the
    provider with that empty string as the token code: nothing checks it
    before the call. *)
Theorem blank_mfa_line_gives_empty_code env options config w line rest :
  tokenSerialNumber config <> EmptyString ->
  session_failure env w (WithOptions options) = None ->
  Go.ReadString (stdin w) LF = Some (line, rest) ->
  only_bytes_of mfa_cutset line = true ->
  (getTokenCode (tokenSerialNumber config) w).2 = Ret (Some EmptyString) /\
  exists r tail,
    trace (getSessionToken env options config w).1 =
    trace w ++
      [EvNewSession (WithOptions options) None;
       EvStdout ("Enter mfa token for " +:+ tokenSerialNumber config +:+ ": ");
       EvReadStdin (Some line);
       EvGetSessionToken (mkSession (WithOptions options) (Some (Region options)))
         (mkGetSessionTokenInput (intermediateDuration config)
            (tokenSerialNumber config) (Some EmptyString)) r] ++ tail.
Proof.
  intros Hserial Hsess Hread Hblank.
  assert (Hcode : forall w0, stdin w0 = stdin w ->
            getTokenCode (tokenSerialNumber config) w0 =
            (log (EvReadStdin (Some line))
               (set_stdin rest
                  (log (EvStdout ("Enter mfa token for " +:+ tokenSerialNumber config +:+ ": "))
                     w0)),
             Ret (Some EmptyString))).
  { intros w0 Hin. unfold getTokenCode.
    rewrite bool_decide_false by exact Hserial.
    unfold bind, Printf, emit, ReadString_Stdin.
    cbn [log stdin]. rewrite Hin, Hread.
    unfold ret. rewrite (Trim_only_cutset _ _ Hblank). reflexivity. }
  split.
  - rewrite (Hcode w eq_refl). reflexivity.
  - unfold getSessionToken, bind at 1, NewSessionWithOptions, session_new.
    rewrite Hsess. unfold bind at 1. cbn [Must ret].
    unfold bind at 1. rewrite Hcode by reflexivity.
    unfold bind at 1, GetSessionToken.
    destruct (sts_GetSessionToken _ _ _ _) as [err|cred].
    + eexists (inl err), _. unfold die, Fprintf_Stderr, emit, os_Exit, bind.
      norm_trace. reflexivity.
    + eexists (inr cred), []. unfold ret. norm_trace. reflexivity.
Qed.

Lemma blank_mfa_line_sample :
  (getTokenCode (tokenSerialNumber Sample.config) Sample.blank_line).2
    = Ret (Some EmptyString) /\
  exists r tail,
    trace (getSessionToken Sample.provider (mkOptions "eu-central-1" "default")
             Sample.config Sample.blank_line).1 =
    trace Sample.blank_line ++
      [EvNewSession (WithOptions (mkOptions "eu-central-1" "default")) None;
       EvStdout "Enter mfa token for arn:aws:iam::123:mfa/alice: ";
       EvReadStdin (Some ("  " +:+ String CR nl));
       EvGetSessionToken
         (mkSession (WithOptions (mkOptions "eu-central-1" "default")) (Some "eu-central-1"))
         (mkGetSessionTokenInput 43200 "arn:aws:iam::123:mfa/alice" (Some EmptyString)) r]
      ++ tail.
Proof.
  apply (blank_mfa_line_gives_empty_code Sample.provider
           (mkOptions "eu-central-1" "default") Sample.config Sample.blank_line
           ("  " +:+ String CR nl) EmptyString).
  - discriminate.
  - reflexivity.
  - reflexivity.
  - reflexivity.
Defined.

(** * Part III: further properties *)

(** ** Trimming and reading lines *)

Lemma TrimLeft_no_lead s cutset :
  starts_with_byte_of cutset (Go.TrimLeft s cutset) = false.
Proof.
  induction s as [|c s IH]; [reflexivity|].
  cbn [Go.TrimLeft]. destruct (Go.byte_in c cutset) eqn:Hc; [exact IH|].
  cbn [starts_with_byte_of]. exact Hc.
Qed.

Lemma TrimRight_no_trail s cutset :
  ends_with_byte_of cutset (Go.TrimRight s cutset) = false.
Proof.
  induction s as [|c s IH]; [reflexivity|].
  cbn [Go.TrimRight]. destruct (Go.TrimRight s cutset) as [|d t].
  - destruct (Go.byte_in c cutset) eqn:Hc; [reflexivity|].
    cbn [ends_with_byte_of]. exact Hc.
  - exact IH.
Qed.

Lemma TrimRight_keeps_start s cutset :
  starts_with_byte_of cutset s = false ->
  starts_with_byte_of cutset (Go.TrimRight s cutset) = false.
Proof.
  destruct s as [|c s]; [reflexivity|]. cbn [starts_with_byte_of Go.TrimRight].
  intros Hc. destruct (Go.TrimRight s cutset); [|exact Hc].
  rewrite Hc. exact Hc.
Qed.

Lemma TrimLeft_lead lead s cutset :
  only_bytes_of cutset lead = true ->
  Go.TrimLeft (lead +:+ s) cutset = Go.TrimLeft s cutset.
Proof.
  induction lead as [|c lead IH]; intros Hlead; [reflexivity|].
  cbn [only_bytes_of] in Hlead. apply andb_true_iff in Hlead as [Hc Hlead].
  rewrite append_cons. cbn [Go.TrimLeft]. rewrite Hc. exact (IH Hlead).
Qed.

Lemma TrimLeft_id s cutset :
  starts_with_byte_of cutset s = false -> Go.TrimLeft s cutset = s.
Proof.
  destruct s as [|c s]; [reflexivity|]. cbn [starts_with_byte_of Go.TrimLeft].
  intros ->. reflexivity.
Qed.

Lemma TrimRight_only s cutset :
  only_bytes_of cutset s = true -> Go.TrimRight s cutset = EmptyString.
Proof.
  induction s as [|c s IH]; intros Hs; [reflexivity|].
  cbn [only_bytes_of] in Hs. apply andb_true_iff in Hs as [Hc Hs].
  cbn [Go.TrimRight]. rewrite (IH Hs), Hc. reflexivity.
Qed.

Lemma TrimRight_trail s trail cutset :
  only_bytes_of cutset trail = true ->
  Go.TrimRight (s +:+ trail) cutset = Go.TrimRight s cutset.
Proof.
  intros Htrail. induction s as [|c s IH].
  - rewrite append_nil. exact (TrimRight_only _ _ Htrail).
  - rewrite append_cons. cbn [Go.TrimRight]. rewrite IH. reflexivity.
Qed.

Lemma TrimRight_id s cutset :
  ends_with_byte_of cutset s = false -> Go.TrimRight s cutset = s.
Proof.
  induction s as [|c s IH]; [reflexivity|].
  cbn [ends_with_byte_of Go.TrimRight]. destruct s as [|d s].
  - intros ->. reflexivity.
  - intros Hs. rewrite (IH Hs). reflexivity.
Qed.

Lemma Trim_padded lead code trail cutset :
  only_bytes_of cutset lead = true ->
  only_bytes_of cutset trail = true ->
  starts_with_byte_of cutset code = false ->
  ends_with_byte_of cutset code = false ->
  Go.Trim (lead +:+ code +:+ trail) cutset = code.
Proof.
  intros Hlead Htrail Hstart Hend. unfold Go.Trim.
  rewrite (TrimLeft_lead _ _ _ Hlead).
  destruct code as [|c code].
  - rewrite append_nil. rewrite (TrimRight_only (Go.TrimLeft trail cutset)).
    + reflexivity.
    + clear -Htrail. induction trail as [|c trail IH]; [reflexivity|].
      cbn [only_bytes_of] in Htrail. apply andb_true_iff in Htrail as [Hc Htrail].
      cbn [Go.TrimLeft]. rewrite Hc. exact (IH Htrail).
  - rewrite TrimLeft_id.
    + rewrite (TrimRight_trail _ _ _ Htrail). exact (TrimRight_id _ _ Hend).
    + rewrite append_cons. exact Hstart.
Qed.

Lemma blanks_in_cutset s :
  only_bytes_of blanks s = true ->
  only_bytes_of mfa_cutset s = true /\ Go.byte_in LF s = false.
Proof.
  induction s as [|c s IH]; intros Hs; [split; reflexivity|].
  cbn [only_bytes_of] in Hs. apply andb_true_iff in Hs as [Hc Hs].
  destruct (IH Hs) as [Hcut Hlf]. unfold blanks in Hc.
  rewrite !byte_in_cons in Hc. cbn [Go.byte_in] in Hc. rewrite orb_false_r in Hc.
  split.
  - cbn [only_bytes_of]. rewrite Hcut, andb_true_r. unfold mfa_cutset.
    rewrite !byte_in_cons.
    apply orb_true_iff in Hc as [->| ->]; [reflexivity|apply orb_true_r].
  - rewrite byte_in_cons, Hlf, orb_false_r. apply bool_decide_eq_false.
    apply orb_true_iff in Hc as [Hc|Hc]; apply bool_decide_eq_true in Hc;
      subst c; discriminate.
Qed.

Lemma ReadString_line body rest d :
  Go.byte_in d body = false ->
  Go.ReadString (body +:+ String d rest) d = Some (body +:+ String d EmptyString, rest).
Proof.
  induction body as [|c body IH]; intros Hbody.
  - rewrite !append_nil. cbn [Go.ReadString].
    rewrite bool_decide_true by reflexivity. reflexivity.
  - rewrite byte_in_cons in Hbody. apply orb_false_iff in Hbody as [Hc Hbody].
    apply bool_decide_eq_false in Hc.
    rewrite !append_cons. cbn [Go.ReadString].
    rewrite bool_decide_false by congruence. rewrite (IH Hbody). reflexivity.
Qed.

Lemma ReadString_None s d :
  Go.byte_in d s = false -> Go.ReadString s d = None.
Proof.
  induction s as [|c s IH]; intros Hs; [reflexivity|].
  rewrite byte_in_cons in Hs. apply orb_false_iff in Hs as [Hc Hs].
  apply bool_decide_eq_false in Hc.
  cbn [Go.ReadString]. rewrite bool_decide_false by congruence.
  rewrite (IH Hs). reflexivity.
Qed.

Lemma ReadString_inv input d line rest :
  Go.ReadString input d = Some (line, rest) ->
  exists body,
    Go.byte_in d body = false /\
    line = body +:+ String d EmptyString /\
    input = line +:+ rest.
Proof.
  revert line. induction input as [|c input IH]; intros line H; [discriminate|].
  cbn [Go.ReadString] in H. case_bool_decide as Hc.
  - injection H as <- <-. subst c. exists EmptyString. by repeat split.
  - destruct (Go.ReadString input d) as [[line' rest']|]; [|discriminate].
    injection H as <- <-. destruct (IH _ eq_refl) as (body & Hbody & -> & ->).
    exists (String c body). split; [|by split].
    rewrite byte_in_cons, Hbody. rewrite bool_decide_false by congruence. reflexivity.
Qed.

Lemma only_bytes_of_append cutset a b :
  only_bytes_of cutset (a +:+ b) = only_bytes_of cutset a && only_bytes_of cutset b.
Proof.
  induction a as [|c a IH]; [reflexivity|].
  rewrite append_cons. cbn [only_bytes_of]. rewrite IH. apply andb_assoc.
Qed.

(** ** The MFA prompt *)

Lemma getTokenCode_Some_inv serial w w' code :
  getTokenCode serial w = (w', Ret (Some code)) ->
  serial <> EmptyString /\
  exists line,
    Go.ReadString (stdin w) LF = Some (line, stdin w') /\
    code = Go.Trim line mfa_cutset.
Proof.
  unfold getTokenCode. case_bool_decide as Hserial; [discriminate|].
  intros H. split; [exact Hserial|]. revert H.
  unfold bind, Printf, emit, ReadString_Stdin. cbn [log stdin].
  destruct (Go.ReadString (stdin w) LF) as [[line rest]|].
  - unfold ret. intros [= <- <-]. exists line. split; reflexivity.
  - unfold die, Fprintf_Stderr, emit, os_Exit, bind. discriminate.
Qed.

(** X1.  The code [getTokenCode] returns never starts and never ends
    with a space, a carriage return or a newline, whatever the operator
    typed. *)
Theorem mfa_code_has_no_blank_ends serial w w' code :
  getTokenCode serial w = (w', Ret (Some code)) ->
  starts_with_byte_of mfa_cutset code = false /\
  ends_with_byte_of mfa_cutset code = false.
Proof.
  intros H. destruct (getTokenCode_Some_inv _ _ _ _ H) as (_ & line & _ & ->).
  unfold Go.Trim. split.
  - apply TrimRight_keeps_start, TrimLeft_no_lead.
  - apply TrimRight_no_trail.
Qed.

Lemma mfa_code_has_no_blank_ends_sample :
  starts_with_byte_of mfa_cutset "123 456" = false /\
  ends_with_byte_of mfa_cutset "123 456" = false.
Proof.
  apply (mfa_code_has_no_blank_ends "arn:aws:iam::123:mfa/alice" More.padded_input
           (getTokenCode "arn:aws:iam::123:mfa/alice" More.padded_input).1 "123 456").
  vm_compute. reflexivity.
Defined.

(** X2.  A code typed between spaces and carriage returns and ended by a
    newline is returned as typed, blanks inside it included. *)
Theorem typed_code_is_returned serial w lead code trail rest :
  serial <> EmptyString ->
  stdin w = lead +:+ code +:+ trail +:+ nl +:+ rest ->
  only_bytes_of blanks lead = true ->
  only_bytes_of blanks trail = true ->
  Go.byte_in LF code = false ->
  starts_with_byte_of mfa_cutset code = false ->
  ends_with_byte_of mfa_cutset code = false ->
  (getTokenCode serial w).2 = Ret (Some code).
Proof.
  intros Hserial Hin Hlead Htrail Hcode Hstart Hend.
  destruct (blanks_in_cutset _ Hlead) as [Hlead_cut Hlead_lf].
  destruct (blanks_in_cutset _ Htrail) as [Htrail_cut Htrail_lf].
  assert (Hread : Go.ReadString (stdin w) LF =
                  Some ((lead +:+ code +:+ trail) +:+ nl, rest)).
  { rewrite Hin.
    replace (lead +:+ code +:+ trail +:+ nl +:+ rest)
      with ((lead +:+ code +:+ trail) +:+ String LF rest)
      by (rewrite <- !append_assoc; reflexivity).
    apply ReadString_line.
    rewrite !byte_in_append, Hlead_lf, Hcode, Htrail_lf. reflexivity. }
  rewrite (getTokenCode_eq _ _ _ _ Hserial Hread). cbn [fst snd].
  do 2 f_equal.
  replace ((lead +:+ code +:+ trail) +:+ nl) with (lead +:+ code +:+ (trail +:+ nl))
    by (rewrite <- !append_assoc; reflexivity).
  apply Trim_padded; try assumption.
  rewrite only_bytes_of_append, Htrail_cut. reflexivity.
Qed.

Lemma typed_code_is_returned_sample :
  (getTokenCode "arn:aws:iam::123:mfa/alice" More.padded_input).2 = Ret (Some "123 456").
Proof.
  apply (typed_code_is_returned "arn:aws:iam::123:mfa/alice" More.padded_input
           " " "123 456" (" " +:+ String CR EmptyString) ("next line" +:+ nl));
    try reflexivity.
  discriminate.
Defined.

(** X3.  When the input ends before a newline, [getSessionToken] prints
    the prompt, fails to read, and exits with code 1 after the line
    [Error reading mfa token: EOF]; the provider is not asked for a
    session token and the store is as before. *)
Theorem closed_input_is_fatal env options config w :
  tokenSerialNumber config <> EmptyString ->
  session_failure env w (WithOptions options) = None ->
  Go.byte_in LF (stdin w) = false ->
  (getSessionToken env options config w).2 = Exited 1 /\
  trace (getSessionToken env options config w).1 =
    trace w ++
      [EvNewSession (WithOptions options) None;
       EvStdout ("Enter mfa token for " +:+ tokenSerialNumber config +:+ ": ");
       EvReadStdin None;
       EvStderr ("Error reading mfa token: EOF" +:+ nl)] /\
  store (getSessionToken env options config w).1 = store w.
Proof.
  intros Hserial Hsess Hclosed.
  assert (Hrun : getSessionToken env options config w =
            (log (EvStderr ("Error reading mfa token: EOF" +:+ nl))
               (log (EvReadStdin None)
                  (set_stdin EmptyString
                     (log (EvStdout ("Enter mfa token for " +:+
                                     tokenSerialNumber config +:+ ": "))
                        (log (EvNewSession (WithOptions options) None) w)))),
             Exited 1)).
  { unfold getSessionToken, NewSessionWithOptions, session_new, bind at 1.
    rewrite Hsess. unfold bind at 1. cbn [Must]. unfold ret at 1.
    unfold bind at 1, getTokenCode. rewrite bool_decide_false by exact Hserial.
    unfold bind at 1, Printf, emit. unfold bind at 1, ReadString_Stdin.
    cbn [log stdin]. rewrite (ReadString_None _ _ Hclosed).
    reflexivity. }
  rewrite Hrun. repeat split. norm_trace. reflexivity.
Qed.

Lemma closed_input_is_fatal_sample :
  (getSessionToken Sample.provider (mkOptions "eu-central-1" "default") Sample.config
     More.closed_input).2 = Exited 1 /\
  trace (getSessionToken Sample.provider (mkOptions "eu-central-1" "default") Sample.config
           More.closed_input).1 =
    trace More.closed_input ++
      [EvNewSession (WithOptions (mkOptions "eu-central-1" "default")) None;
       EvStdout "Enter mfa token for arn:aws:iam::123:mfa/alice: ";
       EvReadStdin None;
       EvStderr ("Error reading mfa token: EOF" +:+ nl)] /\
  store (getSessionToken Sample.provider (mkOptions "eu-central-1" "default") Sample.config
           More.closed_input).1 = store More.closed_input.
Proof.
  apply (closed_input_is_fatal Sample.provider (mkOptions "eu-central-1" "default")
           Sample.config More.closed_input).
  - discriminate.
  - reflexivity.
  - reflexivity.
Defined.

(** ** What the loop leaves alone *)

Section Within.

Variable env : Env.
Variable R : World -> World -> Prop.
Variable config : SwampConfig.

Hypothesis R_refl : forall w, R w w.
Hypothesis R_trans : forall w1 w2 w3, R w1 w2 -> R w2 w3 -> R w1 w3.
Hypothesis R_log : forall ev w, R w (log ev w).
Hypothesis R_read :
  tokenSerialNumber config <> EmptyString -> within R ReadString_Stdin.
Hypothesis R_write_intermediate :
  tokenSerialNumber config <> EmptyString ->
  forall cred,
    within R (writeProfile cred (intermediateProfile config) (Some (region config))).
Hypothesis R_write_target :
  forall cred rgn, within R (writeProfile cred (targetProfile config) rgn).
Hypothesis R_export :
  exportProfile config = true -> within R (writeProfileToFile env config).
Hypothesis R_sleep :
  renew config = true -> within R (time_Sleep (sleepDuration config)).

Lemma within_ret {A} (a : A) : within R (ret a).
Proof. intros w. apply R_refl. Qed.

Lemma within_panic {A} e : within R (@panic A e).
Proof. intros w. apply R_refl. Qed.

Lemma within_bind {A B} (m : M A) (k : A -> M B) :
  within R m -> (forall a, within R (k a)) -> within R (bind m k).
Proof.
  intros Hm Hk w. specialize (Hm w). unfold bind.
  destruct (m w) as [w1 [a|c|e]]; cbn [fst] in *; try exact Hm.
  exact (R_trans _ _ _ Hm (Hk a w1)).
Qed.

Lemma within_emit ev : within R (emit ev).
Proof. intros w. apply R_log. Qed.

Lemma within_die {A} msg err : within R (@die A msg err).
Proof. intros w. apply R_log. Qed.

Lemma within_session_new src : within R (session_new env src).
Proof.
  intros w. unfold session_new. destruct (session_failure env w src); apply R_log.
Qed.

Lemma within_Must r : within R (Must r).
Proof. destruct r; [apply within_panic|apply within_ret]. Qed.

Lemma within_getCallerId svc : within R (getCallerId env svc).
Proof.
  apply within_bind; [intros w; apply R_log|].
  intros [err|output]; [apply within_die|apply within_ret].
Qed.

Lemma within_getTokenCode : within R (getTokenCode (tokenSerialNumber config)).
Proof.
  unfold getTokenCode. case_bool_decide as Hserial; [apply within_ret|].
  apply within_bind; [apply within_emit|]. intros _.
  apply within_bind; [exact (R_read Hserial)|].
  intros [line|]; [apply within_ret|apply within_die].
Qed.

Lemma within_validateSessionToken options :
  within R (validateSessionToken env options).
Proof.
  apply within_bind; [apply within_session_new|]. intros r.
  apply within_bind; [apply within_Must|]. intros sess.
  apply within_bind; [intros w; apply R_log|]. intros r'. apply within_ret.
Qed.

Lemma within_getSessionToken options :
  within R (getSessionToken env options config).
Proof.
  apply within_bind; [apply within_session_new|]. intros r.
  apply within_bind; [apply within_Must|]. intros sess.
  apply within_bind; [apply within_getTokenCode|]. intros code.
  apply within_bind; [intros w; apply R_log|].
  intros [err|cred]; [apply within_die|apply within_ret].
Qed.

Lemma within_ensureSessionTokenProfile :
  tokenSerialNumber config <> EmptyString ->
  within R (ensureSessionTokenProfile env config).
Proof.
  intros Hserial.
  apply within_bind; [apply within_validateSessionToken|].
  intros [|]; [apply within_emit|].
  apply within_bind; [apply within_getSessionToken|]. intros cred.
  exact (R_write_intermediate Hserial cred).
Qed.

Lemma within_ensureTargetProfile sess :
  within R (ensureTargetProfile env config sess).
Proof.
  apply within_bind; [apply within_getCallerId|]. intros output.
  apply within_bind.
  { unfold deref. destruct (Arn output); [apply within_ret|apply within_panic]. }
  intros userId.
  apply within_bind.
  { unfold index. destruct (_ !! _); [apply within_ret|apply within_panic]. }
  intros roleSessionName.
  apply within_bind; [|intros cred; apply R_write_target].
  apply within_bind; [intros w; apply R_log|].
  intros [err|cred]; [apply within_die|apply within_ret].
Qed.

Lemma within_targetSession : within R (targetSession env config).
Proof.
  unfold targetSession. destruct (useInstanceProfile config);
    (apply within_bind; [apply within_session_new|intros r; apply within_Must]).
Qed.

Lemma within_chain : within R (chain env config).
Proof.
  apply within_bind.
  { case_bool_decide as Hserial;
      [exact (within_ensureSessionTokenProfile Hserial)|apply within_ret]. }
  intros _. apply within_bind; [apply within_targetSession|]. intros sess.
  apply within_bind; [apply within_ensureTargetProfile|]. intros _.
  destruct (exportProfile config) eqn:Hexport; [exact (R_export eq_refl)|apply within_ret].
Qed.

Lemma within_main_loop n : within R (main_loop env n config).
Proof.
  induction n as [|n IH]; [apply within_ret|]. cbn [main_loop].
  apply within_bind; [apply within_chain|]. intros _.
  destruct (renew config) eqn:Hrenew; cbn [negb]; [|apply within_ret].
  apply within_bind; [exact (R_sleep eq_refl)|]. intros _. exact IH.
Qed.

End Within.

Ltac world_fields :=
  cbn [fst snd trace store files stdin clock log set_store set_files set_stdin advance].

Lemma ReadString_Stdin_fields w :
  store (ReadString_Stdin w).1 = store w /\
  files (ReadString_Stdin w).1 = files w /\
  clock (ReadString_Stdin w).1 = clock w.
Proof.
  unfold ReadString_Stdin.
  destruct (Go.ReadString (stdin w) LF) as [[line rest]|]; by repeat split.
Qed.

Lemma writeProfileToFile_fields env config w :
  store (writeProfileToFile env config w).1 = store w /\
  stdin (writeProfileToFile env config w).1 = stdin w /\
  clock (writeProfileToFile env config w).1 = clock w /\
  forall path,
    path <> exportFile config ->
    files (writeProfileToFile env config w).1 !! path = files w !! path.
Proof.
  unfold writeProfileToFile, bind, os_Create.
  destruct (os_Create_failure env w (exportFile config)) as [err|].
  - by repeat split.
  - repeat split. intros path Hpath. unfold Fprintf_file. world_fields.
    rewrite !lookup_insert_ne by congruence. reflexivity.
Qed.


(** X5.  Whatever the loop does and however it ends, the only entries of
    the credentials store that can differ from the start are those of
    the intermediate profile and of the target profile; without an MFA
    device, only that of the target profile. *)
Theorem only_two_profiles_are_written env config n w :
  (forall name,
     name <> intermediateProfile config ->
     name <> targetProfile config ->
     store (main_loop env n config w).1 !! name = store w !! name) /\
  (tokenSerialNumber config = EmptyString ->
   forall name,
     name <> targetProfile config ->
     store (main_loop env n config w).1 !! name = store w !! name).
Proof.
  split.
  - apply (within_main_loop env
             (fun w w' => forall name, name <> intermediateProfile config ->
                                       name <> targetProfile config ->
                                       store w' !! name = store w !! name) config).
    + reflexivity.
    + intros w1 w2 w3 H12 H23 name Hi Ht. rewrite (H23 _ Hi Ht). exact (H12 _ Hi Ht).
    + reflexivity.
    + intros _ w0 name _ _. f_equal. apply ReadString_Stdin_fields.
    + intros _ cred w0 name Hi _. unfold writeProfile. world_fields.
      apply lookup_insert_ne. congruence.
    + intros cred rgn w0 name _ Ht. unfold writeProfile. world_fields.
      apply lookup_insert_ne. congruence.
    + intros _ w0 name _ _. f_equal. apply writeProfileToFile_fields.
    + repeat intro. reflexivity.
  - intros Hserial.
    apply (within_main_loop env
             (fun w w' => forall name, name <> targetProfile config ->
                                       store w' !! name = store w !! name) config).
    + reflexivity.
    + intros w1 w2 w3 H12 H23 name Ht. rewrite (H23 _ Ht). exact (H12 _ Ht).
    + reflexivity.
    + intros Hne. destruct (Hne Hserial).
    + intros Hne. destruct (Hne Hserial).
    + intros cred rgn w0 name Ht. unfold writeProfile. world_fields.
      apply lookup_insert_ne. congruence.
    + intros _ w0 name _. f_equal. apply writeProfileToFile_fields.
    + repeat intro. reflexivity.
Qed.

Lemma only_two_profiles_are_written_sample :
  store (main_loop Sample.provider 2 (Sample.without_mfa (Sample.with_renew Sample.config))
           More.busy).1 !! "default" =
  store More.busy !! "default".
Proof.
  destruct (only_two_profiles_are_written Sample.provider
              (Sample.without_mfa (Sample.with_renew Sample.config)) 2 More.busy)
    as [_ Honly].
  apply (Honly eq_refl). discriminate.
Defined.


Lemma append_nil_r (s : string) : s +:+ EmptyString = s.
Proof. induction s as [|c s IH]; [reflexivity|]. rewrite append_cons. by f_equal. Qed.

(** X6.  The input of the operator is only ever consumed from the front;
    and without an MFA device nothing of it is consumed, however many
    passes the loop makes and however it ends. *)
Theorem input_is_only_read_for_mfa env config n w :
  (exists consumed, stdin w = consumed +:+ stdin (main_loop env n config w).1) /\
  (tokenSerialNumber config = EmptyString ->
   stdin (main_loop env n config w).1 = stdin w).
Proof.
  split.
  - apply (within_main_loop env
             (fun w w' => exists consumed, stdin w = consumed +:+ stdin w') config).
    + intros w0. by exists EmptyString.
    + intros w1 w2 w3 [c1 H12] [c2 H23]. exists (c1 +:+ c2).
      rewrite H12, H23. apply append_assoc.
    + intros ev w0. by exists EmptyString.
    + intros _ w0. unfold ReadString_Stdin.
      destruct (Go.ReadString (stdin w0) LF) as [[line rest]|] eqn:Hread.
      * destruct (ReadString_inv _ _ _ _ Hread) as (_ & _ & _ & Hinput).
        by exists line.
      * exists (stdin w0). world_fields. by rewrite append_nil_r.
    + intros _ cred w0. by exists EmptyString.
    + intros cred rgn w0. by exists EmptyString.
    + intros _ w0. exists EmptyString.
      destruct (writeProfileToFile_fields env config w0) as (_ & -> & _). reflexivity.
    + intros _ w0. by exists EmptyString.
  - intros Hserial.
    apply (within_main_loop env (fun w w' => stdin w' = stdin w) config).
    + reflexivity.
    + intros w1 w2 w3 H12 H23. congruence.
    + reflexivity.
    + intros Hne. destruct (Hne Hserial).
    + repeat intro. reflexivity.
    + repeat intro. reflexivity.
    + intros _ w0. apply writeProfileToFile_fields.
    + repeat intro. reflexivity.
Qed.

Lemma input_is_only_read_for_mfa_sample :
  stdin (main_loop Sample.provider 2 (Sample.without_mfa (Sample.with_renew Sample.config))
           More.busy).1 = stdin More.busy.
Proof.
  destruct (input_is_only_read_for_mfa Sample.provider
              (Sample.without_mfa (Sample.with_renew Sample.config)) 2 More.busy)
    as [_ Hnone].
  apply Hnone. reflexivity.
Defined.

(** ** Passes and sleeps *)

Lemma chain_clock env config w : clock (chain env config w).1 = clock w.
Proof.
  apply (within_chain env (fun w w' => clock w' = clock w) config).
  - reflexivity.
  - intros w1 w2 w3 H12 H23. congruence.
  - reflexivity.
  - intros _ w0. apply ReadString_Stdin_fields.
  - repeat intro. reflexivity.
  - repeat intro. reflexivity.
  - intros _ w0. apply writeProfileToFile_fields.
Qed.

Lemma main_loop_renew_not_Broke env config n w w' :
  renew config = true -> main_loop env n config w <> (w', Ret Broke).
Proof.
  intros Hrenew. revert w. induction n as [|n IH]; intros w H.
  - discriminate H.
  - cbn [main_loop] in H. apply bind_Ret_inv in H as ([] & w1 & _ & H).
    rewrite Hrenew in H. cbn [negb] in H.
    apply bind_Ret_inv in H as ([] & w2 & _ & H). exact (IH _ H).
Qed.

Lemma main_loop_clock env config n w w' e :
  main_loop env n config w = (w', Ret e) ->
  clock w' = clock w +
    match e with
    | Broke => 0
    | StillLooping => Z.of_nat n * Z.max 0 (sleepDuration config)
    end.
Proof.
  revert w. induction n as [|n IH]; intros w H.
  - injection H as <- <-. cbn. lia.
  - cbn [main_loop] in H. apply bind_Ret_inv in H as ([] & w1 & Hchain & H).
    pose proof (chain_clock env config w) as Hclock. rewrite Hchain in Hclock.
    cbn [fst] in Hclock.
    destruct (renew config) eqn:Hrenew; cbn [negb] in H.
    + apply bind_Ret_inv in H as ([] & w2 & Hsleep & H).
      injection Hsleep as <-. specialize (IH _ H). rewrite IH. world_fields.
      destruct e; [|lia].
      exfalso. exact (main_loop_renew_not_Broke _ _ _ _ _ Hrenew H).
    + injection H as <- <-. lia.
Qed.

(** X7.  A loop that has completed [n] passes with renewal has slept [n]
    times what [time.Sleep] makes of its argument, and nothing else; when
    the target duration is not negative and fits, that is [n] times half
    the target duration.  A loop that left by the [break] has not slept
    at all. *)
Theorem time_slept_by_the_loop env config n w w' e :
  main_loop env n config w = (w', Ret e) ->
  match e with
  | Broke => clock w' = clock w
  | StillLooping =>
      clock w' = clock w + Z.of_nat n * Z.max 0 (sleepDuration config) /\
      (0 <= targetDuration config ->
       targetDuration config / 2 * 1000000000 < 2 ^ 63 ->
       clock w' = clock w + Z.of_nat n * (targetDuration config / 2 * 1000000000))
  end.
Proof.
  intros H. pose proof (main_loop_clock _ _ _ _ _ _ H) as Hclock.
  destruct e; [lia|]. split; [exact Hclock|].
  intros Hpos Hfit. destruct (sleepDuration_in_range config Hpos Hfit) as [Hd Hd0].
  rewrite Hclock, Z.max_r by exact Hd0. by rewrite Hd.
Qed.

Lemma time_slept_by_the_loop_sample :
  clock (main_loop Sample.provider 3 (Sample.with_renew Sample.config) Sample.start).1 =
    clock Sample.start + 3 * Z.max 0 (sleepDuration (Sample.with_renew Sample.config)) /\
  (0 <= 3600 -> 3600 / 2 * 1000000000 < 2 ^ 63 ->
   clock (main_loop Sample.provider 3 (Sample.with_renew Sample.config) Sample.start).1 =
     clock Sample.start + 3 * (3600 / 2 * 1000000000)).
Proof.
  apply (time_slept_by_the_loop Sample.provider (Sample.with_renew Sample.config) 3
           Sample.start _ StillLooping).
  vm_compute. reflexivity.
Defined.

Lemma sleepDuration_short config :
  -18446744073 <= targetDuration config <= 1 -> sleepDuration config <= 0.
Proof.
  intros Hd. unfold sleepDuration, Go.int64_mul, Go.int64_div, Go.time_Second.
  assert (-9223372036 <= Z.quot (targetDuration config) 2 <= 0) as Hq.
  { pose proof (Z.quot_rem' (targetDuration config) 2) as Hqr.
    pose proof (Z.rem_bound_abs (targetDuration config) 2 ltac:(lia)) as Hr.
    destruct (Z_le_gt_dec 0 (targetDuration config)) as [Hpos|Hneg].
    - pose proof (Z.rem_nonneg (targetDuration config) 2 ltac:(lia) Hpos). lia.
    - pose proof (Z.rem_nonpos (targetDuration config) 2 ltac:(lia) ltac:(lia)). lia. }
  rewrite wrap64_small; lia.
Qed.

(** X8.  For a target duration of one second or less, down to
    -18446744073 seconds, the argument of [time.Sleep] is zero or
    negative: the loop never waits, it runs its passes back to back. *)
Theorem short_durations_never_sleep env config n w :
  -18446744073 <= targetDuration config <= 1 ->
  sleepDuration config <= 0 /\
  clock (main_loop env n config w).1 = clock w.
Proof.
  intros Hd. pose proof (sleepDuration_short config Hd) as Hshort.
  split; [exact Hshort|].
  apply (within_main_loop env (fun w w' => clock w' = clock w) config).
  - reflexivity.
  - intros w1 w2 w3 H12 H23. congruence.
  - reflexivity.
  - intros _ w0. apply ReadString_Stdin_fields.
  - repeat intro. reflexivity.
  - repeat intro. reflexivity.
  - intros _ w0. apply writeProfileToFile_fields.
  - intros _ w0. unfold time_Sleep. world_fields. lia.
Qed.

Lemma short_durations_never_sleep_sample :
  sleepDuration (Sample.with_targetDuration 1 (Sample.with_renew Sample.config)) <= 0 /\
  clock (main_loop Sample.provider 5
           (Sample.with_targetDuration 1 (Sample.with_renew Sample.config))
           Sample.start).1 = clock Sample.start.
Proof.
  apply (short_durations_never_sleep Sample.provider
           (Sample.with_targetDuration 1 (Sample.with_renew Sample.config)) 5 Sample.start).
  split; [vm_compute; discriminate|vm_compute; discriminate].
Defined.

(** X9.  With renewal the loop has no way out but an exit or a panic:
    it never leaves by the [break].  Without renewal it never goes past
    its first pass. *)
Theorem renewal_never_breaks env config n w :
  (renew config = true -> (main_loop env n config w).2 <> Ret Broke) /\
  (renew config = false -> (main_loop env (S n) config w).2 <> Ret StillLooping).
Proof.
  split.
  - intros Hrenew H.
    apply (main_loop_renew_not_Broke env config n w (main_loop env n config w).1 Hrenew).
    rewrite <- H. by destruct (main_loop env n config w).
  - intros Hrenew. cbn [main_loop]. unfold bind.
    destruct (chain env config w) as [w1 [[]|c|e]]; cbn [snd]; try discriminate.
    rewrite Hrenew. discriminate.
Qed.

Lemma renewal_never_breaks_sample :
  (main_loop Sample.provider 4 (Sample.with_renew Sample.config) Sample.start).2
    <> Ret Broke /\
  (main_loop Sample.provider 4 Sample.config Sample.start).2 <> Ret StillLooping.
Proof.
  split.
  - destruct (renewal_never_breaks Sample.provider (Sample.with_renew Sample.config) 4
                Sample.start) as [Hrenew _].
    apply Hrenew. reflexivity.
  - destruct (renewal_never_breaks Sample.provider Sample.config 3 Sample.start)
      as [_ Honce].
    apply Honce. reflexivity.
Defined.

(** A run that has ended within [n] passes, by the [break], an exit or
    a panic, ends in the same world and the same way when it is followed
    for any larger number of passes. *)
Lemma ended_runs_are_stable env config n k w w' r :
  main_loop env n config w = (w', r) ->
  r <> Ret StillLooping ->
  main_loop env (n + k) config w = (w', r).
Proof.
  revert w. induction n as [|n IH]; intros w H Hended.
  - injection H as <- <-. destruct (Hended eq_refl).
  - cbn [main_loop Nat.add] in H |- *. unfold bind at 1 in H. unfold bind at 1.
    destruct (chain env config w) as [w1 [[]|c|e]]; try exact H.
    destruct (renew config); cbn [negb] in H |- *; [|exact H].
    unfold bind at 1 in H. unfold bind at 1.
    destruct (time_Sleep (sleepDuration config) w1) as [w2 [[]|c|e]]; try exact H.
    exact (IH _ H Hended).
Qed.

(** ** The assume-role step *)

Lemma tail_segment_trailing_slash front :
  Spec.tail_segment (front +:+ String slash EmptyString) = EmptyString.
Proof.
  induction front as [|c front IH].
  - rewrite append_nil. cbn [Spec.tail_segment Go.byte_in].
    rewrite bool_decide_true by reflexivity. reflexivity.
  - rewrite append_cons. cbn [Spec.tail_segment].
    rewrite byte_in_append, byte_in_cons.
    rewrite (bool_decide_true (slash = slash)) by reflexivity.
    rewrite orb_true_r. exact IH.
Qed.

Lemma ensureTargetProfile_eq env config sess w arn :
  sts_GetCallerIdentity env w sess = inr (mkIdentity (Some arn)) ->
  ensureTargetProfile env config sess w =
  (cred <-- assumeRole env sess (GetRoleArn config) (Spec.tail_segment arn)
              (targetDuration config) ;;
   writeProfile cred (targetProfile config) (Config_Region sess))
    (log (EvGetCallerIdentity sess (inr (mkIdentity (Some arn)))) w).
Proof.
  intros Hid.
  unfold ensureTargetProfile, getCallerId, GetCallerIdentity, bind at 1 2.
  rewrite Hid. cbn [ret deref Arn].
  unfold bind at 1. cbn [ret].
  unfold bind at 1, index. rewrite Split_lookup_last. reflexivity.
Qed.

Lemma ensureTargetProfile_Ret_input env config sess w w' :
  ensureTargetProfile env config sess w = (w', Ret tt) ->
  exists arn cred,
    let i := mkAssumeRoleInput (GetRoleArn config) (Spec.tail_segment arn)
               (targetDuration config) in
    trace w' = trace w ++
      [EvGetCallerIdentity sess (inr (mkIdentity (Some arn)));
       EvAssumeRole sess i (inr cred);
       EvWriteProfile cred (targetProfile config) (Config_Region sess)] /\
    store w' = <[targetProfile config := (cred, Config_Region sess)]> (store w) /\
    files w' = files w /\ stdin w' = stdin w /\ clock w' = clock w.
Proof.
  intros H.
  destruct (sts_GetCallerIdentity env w sess) as [err|[[arn|]]] eqn:Hid.
  - revert H. unfold ensureTargetProfile, getCallerId, GetCallerIdentity, bind at 1 2.
    rewrite Hid. discriminate.
  - rewrite (ensureTargetProfile_eq _ _ _ _ _ Hid) in H.
    unfold bind at 1, assumeRole, AssumeRole, bind at 1 in H.
    destruct (sts_AssumeRole env _ sess _) as [err|cred].
    + discriminate H.
    + unfold ret, writeProfile in H. injection H as <-.
      exists arn, cred. cbv zeta. norm_trace. by repeat split.
  - revert H. unfold ensureTargetProfile, getCallerId, GetCallerIdentity, bind at 1 2.
    rewrite Hid. discriminate.
Qed.

Lemma targetSession_Ret_source env config w w' sess :
  targetSession env config w = (w', Ret sess) ->
  w' = log (EvNewSession (source sess) None) w /\
  source sess = target_source config /\
  Config_Region sess =
    (if useInstanceProfile config then default_region env w else Some (region config)).
Proof.
  unfold targetSession, target_source, NewSession, NewSessionWithOptions, session_new, bind.
  destruct (useInstanceProfile config);
    destruct (session_failure env w _); cbn [Must];
    unfold panic, ret; intros H; try discriminate H;
    injection H as <- <-; by repeat split.
Qed.

(** X10.  When the export file cannot be created, the pass exits with
    code 1 after the line [Error writing target profile to export file],
    but only after the target profile has been written: the store holds
    the new credentials, and no file has changed. *)
Theorem export_failure_comes_after_the_profile env config sess w w1 err :
  exportProfile config = true ->
  ensureTargetProfile env config sess w = (w1, Ret tt) ->
  os_Create_failure env w1 (exportFile config) = Some err ->
  let after :=
    (ensureTargetProfile env config sess ;;;
     if exportProfile config then writeProfileToFile env config else ret tt) w in
  after.2 = Exited 1 /\
  trace after.1 = trace w1 ++
    [EvCreate (exportFile config) (Some err);
     EvStderr ("Error writing target profile to export file: " +:+ err +:+ nl)] /\
  files after.1 = files w /\
  exists cred, store after.1 !! targetProfile config = Some (cred, Config_Region sess).
Proof.
  intros Hexport Htarget Hcreate. cbv zeta.
  rewrite (bind_Ret _ _ _ _ _ Htarget), Hexport.
  unfold writeProfileToFile, bind, os_Create. rewrite Hcreate.
  unfold die, bind, Fprintf_Stderr, emit, os_Exit.
  destruct (ensureTargetProfile_Ret_input _ _ _ _ _ Htarget)
    as (arn & cred & _ & Hstore & Hfiles & _).
  split; [reflexivity|]. split; [norm_trace; reflexivity|].
  split; [exact Hfiles|]. exists cred. world_fields.
  rewrite Hstore. apply lookup_insert_eq.
Qed.

Lemma export_failure_comes_after_the_profile_sample :
  let sess := mkSession Default (Some "eu-central-1") in
  let after :=
    (ensureTargetProfile More.read_only Sample.config sess ;;;
     if exportProfile Sample.config then writeProfileToFile More.read_only Sample.config
     else ret tt) More.busy in
  after.2 = Exited 1 /\
  trace after.1 =
    trace (ensureTargetProfile More.read_only Sample.config sess More.busy).1 ++
    [EvCreate "/tmp/out" (Some "permission denied");
     EvStderr ("Error writing target profile to export file: permission denied" +:+ nl)] /\
  files after.1 = files More.busy /\
  exists cred, store after.1 !! "swamp" = Some (cred, Some "eu-central-1").
Proof.
  cbv zeta.
  apply (export_failure_comes_after_the_profile More.read_only Sample.config
           (mkSession Default (Some "eu-central-1")) More.busy
           (ensureTargetProfile More.read_only Sample.config
              (mkSession Default (Some "eu-central-1")) More.busy).1
           "permission denied").
  - reflexivity.
  - vm_compute. reflexivity.
  - reflexivity.
Defined.

(** X11.  [ensureTargetProfile] panics exactly when the provider returns
    an identity without [Arn]: taking the last piece of the split
    reference never fails, whatever the reference is. *)
Theorem target_step_panics_only_without_arn env config sess w :
  (exists e, (ensureTargetProfile env config sess w).2 = Panicked e) <->
  sts_GetCallerIdentity env w sess = inr (mkIdentity None).
Proof.
  destruct (sts_GetCallerIdentity env w sess) as [err|[[arn|]]] eqn:Hid.
  - split; [|discriminate]. intros [e H]. revert H.
    unfold ensureTargetProfile, getCallerId, GetCallerIdentity, bind at 1 2.
    rewrite Hid. discriminate.
  - split; [|discriminate]. intros [e H]. revert H.
    rewrite (ensureTargetProfile_eq _ _ _ _ _ Hid).
    unfold bind at 1, assumeRole, AssumeRole, bind at 1.
    destruct (sts_AssumeRole env _ sess _) as [err|cred]; discriminate.
  - split; [reflexivity|]. intros _. eexists.
    unfold ensureTargetProfile, getCallerId, GetCallerIdentity, bind at 1 2.
    rewrite Hid. reflexivity.
Qed.

(** X12.  The role session name passed to [AssumeRole] never has a [/]
    in it; for an identity reference that ends with a [/] it is the
    empty string, and [AssumeRole] is called with it all the same. *)
Theorem session_name_has_no_slash env config sess w arn :
  sts_GetCallerIdentity env w sess = inr (mkIdentity (Some arn)) ->
  exists name r rest,
    trace (ensureTargetProfile env config sess w).1 =
    trace w ++
      EvGetCallerIdentity sess (inr (mkIdentity (Some arn))) ::
      EvAssumeRole sess
        (mkAssumeRoleInput (GetRoleArn config) name (targetDuration config)) r :: rest /\
    Go.byte_in slash name = false /\
    (forall front, arn = front +:+ String slash EmptyString -> name = EmptyString).
Proof.
  intros Hid. rewrite (ensureTargetProfile_eq _ _ _ _ _ Hid).
  exists (Spec.tail_segment arn).
  unfold bind at 1, assumeRole, AssumeRole, bind at 1.
  destruct (sts_AssumeRole env _ sess _) as [err|cred].
  - eexists (inl err), _. split; [|split].
    + unfold die, Fprintf_Stderr, emit, os_Exit, bind. norm_trace. reflexivity.
    + apply tail_segment_no_slash_inside.
    + intros front ->. apply tail_segment_trailing_slash.
  - eexists (inr cred), _. split; [|split].
    + unfold ret, writeProfile. norm_trace. reflexivity.
    + apply tail_segment_no_slash_inside.
    + intros front ->. apply tail_segment_trailing_slash.
Qed.

Lemma session_name_has_no_slash_sample :
  exists name r rest,
    trace (ensureTargetProfile More.trailing_slash Sample.config
             (mkSession Default (Some "eu-central-1")) Sample.start).1 =
    trace Sample.start ++
      EvGetCallerIdentity (mkSession Default (Some "eu-central-1"))
        (inr (mkIdentity (Some "arn:aws:iam::123:user/"))) ::
      EvAssumeRole (mkSession Default (Some "eu-central-1"))
        (mkAssumeRoleInput "arn:aws:iam::456:role/admin" name 3600) r :: rest /\
    Go.byte_in slash name = false /\
    (forall front,
       "arn:aws:iam::123:user/" = front +:+ String slash EmptyString ->
       name = EmptyString).
Proof.
  exact (session_name_has_no_slash More.trailing_slash Sample.config
           (mkSession Default (Some "eu-central-1")) Sample.start
           "arn:aws:iam::123:user/" eq_refl).
Defined.

Lemma target_step_panics_only_without_arn_sample :
  exists e,
    (ensureTargetProfile More.no_arn Sample.config
       (mkSession Default (Some "eu-central-1")) Sample.start).2 = Panicked e.
Proof.
  apply (target_step_panics_only_without_arn More.no_arn Sample.config
           (mkSession Default (Some "eu-central-1")) Sample.start).
  reflexivity.
Defined.

Lemma chain_Ret_inv env config w w' :
  chain env config w = (w', Ret tt) ->
  exists w1 sess arn cred back,
    (if bool_decide (tokenSerialNumber config <> EmptyString)
     then ensureSessionTokenProfile env config else ret tt) w = (w1, Ret tt) /\
    source sess = target_source config /\
    Config_Region sess =
      (if useInstanceProfile config then default_region env w1 else Some (region config)) /\
    trace w' = trace w1 ++
      [EvNewSession (source sess) None;
       EvGetCallerIdentity sess (inr (mkIdentity (Some arn)));
       EvAssumeRole sess
         (mkAssumeRoleInput (GetRoleArn config) (Spec.tail_segment arn)
            (targetDuration config)) (inr cred);
       EvWriteProfile cred (targetProfile config) (Config_Region sess)] ++ back /\
    store w' = <[targetProfile config := (cred, Config_Region sess)]> (store w1) /\
    (exportProfile config = false ->
     back = [] /\ files w' = files w1 /\ stdin w' = stdin w1 /\ clock w' = clock w1).
Proof.
  intros H. unfold chain in H.
  apply bind_Ret_inv in H as ([] & w1 & Hmfa & H).
  apply bind_Ret_inv in H as (sess & w2 & Hsession & H).
  apply bind_Ret_inv in H as ([] & w3 & Htarget & Hexport).
  destruct (targetSession_Ret_source _ _ _ _ _ Hsession) as (-> & Hsource & Hregion).
  destruct (ensureTargetProfile_Ret_input _ _ _ _ _ Htarget)
    as (arn & cred & Htrace & Hstore & Hfiles & Hstdin & Hclock).
  destruct (quiet_step _ _ _ _ _
              (orderly_export_quiet env _ config (fun _ H => H)) Hexport)
    as [[back Hback] Hkept].
  exists w1, sess, arn, cred, back. split; [exact Hmfa|].
  split; [exact Hsource|]. split; [exact Hregion|]. split; [|split].
  - rewrite Hback, Htrace. norm_trace. reflexivity.
  - rewrite Hkept, Hstore. reflexivity.
  - intros Hoff. rewrite Hoff in Hexport. injection Hexport as <-.
    rewrite <- (app_nil_r (trace w3)) in Hback at 1.
    apply app_inv_head in Hback. by repeat split.
Qed.

(** X13.  In a completed pass the role is assumed, with the configured
    role reference and the target duration, on the session of the host
    identity when [useInstanceProfile] is set, even if an MFA device is
    configured and the intermediate profile was just renewed; otherwise
    on the intermediate profile when an MFA device is configured, and on
    the base profile when none is. *)
Theorem who_assumes_the_role env config w w' :
  chain env config w = (w', Ret tt) ->
  exists sess i cred front back,
    trace w' = front ++
      [EvAssumeRole sess i (inr cred);
       EvWriteProfile cred (targetProfile config) (Config_Region sess)] ++ back /\
    RoleArn i = GetRoleArn config /\
    DurationSeconds i = targetDuration config /\
    source sess =
      (if useInstanceProfile config then Default
       else if bool_decide (tokenSerialNumber config <> EmptyString)
            then WithOptions (mkOptions (region config) (intermediateProfile config))
            else WithOptions (mkOptions (region config) (profile config))).
Proof.
  intros H.
  destruct (chain_Ret_inv _ _ _ _ H)
    as (w1 & sess & arn & cred & back & _ & Hsource & _ & Htrace & _).
  exists sess,
    (mkAssumeRoleInput (GetRoleArn config) (Spec.tail_segment arn) (targetDuration config)),
    cred,
    (trace w1 ++ [EvNewSession (source sess) None;
                  EvGetCallerIdentity sess (inr (mkIdentity (Some arn)))]),
    back.
  split; [rewrite Htrace, <- !app_assoc; reflexivity|].
  split; [reflexivity|]. split; [reflexivity|].
  rewrite Hsource. unfold target_source, baseProfile.
  destruct (useInstanceProfile config); [reflexivity|]. by case_bool_decide.
Qed.

Lemma who_assumes_the_role_sample :
  exists sess i cred front back,
    trace (chain Sample.provider (More.with_instance_profile Sample.config) Sample.start).1 =
    front ++
      [EvAssumeRole sess i (inr cred);
       EvWriteProfile cred "swamp" (Config_Region sess)] ++ back /\
    RoleArn i = "arn:aws:iam::456:role/admin" /\
    DurationSeconds i = 3600 /\
    source sess = Default.
Proof.
  apply (who_assumes_the_role Sample.provider (More.with_instance_profile Sample.config)
           Sample.start).
  vm_compute. reflexivity.
Defined.



(** X15.  Without an MFA device and without export, a completed pass is
    exactly four events: the session is made, the caller identity is
    looked up once, the role is assumed once, the target profile is
    written once.  The store differs from before by that entry only;
    files, input and clock are as before. *)
Theorem plain_pass env config w w' :
  tokenSerialNumber config = EmptyString ->
  exportProfile config = false ->
  chain env config w = (w', Ret tt) ->
  exists sess arn cred,
    source sess = target_source config /\
    trace w' = trace w ++
      [EvNewSession (source sess) None;
       EvGetCallerIdentity sess (inr (mkIdentity (Some arn)));
       EvAssumeRole sess
         (mkAssumeRoleInput (GetRoleArn config) (Spec.tail_segment arn)
            (targetDuration config)) (inr cred);
       EvWriteProfile cred (targetProfile config) (Config_Region sess)] /\
    store w' = <[targetProfile config := (cred, Config_Region sess)]> (store w) /\
    files w' = files w /\ stdin w' = stdin w /\ clock w' = clock w.
Proof.
  intros Hserial Hexport H.
  destruct (chain_Ret_inv _ _ _ _ H)
    as (w1 & sess & arn & cred & back & Hmfa & Hsource & _ & Htrace & Hstore & Hoff).
  rewrite bool_decide_false in Hmfa by (intros Hne; exact (Hne Hserial)).
  injection Hmfa as <-. destruct (Hoff Hexport) as (-> & Hfiles & Hstdin & Hclock).
  exists sess, arn, cred. rewrite app_nil_r in Htrace. by repeat split.
Qed.

Lemma plain_pass_sample :
  let config := More.without_export (Sample.without_mfa Sample.config) in
  let w' := (chain Sample.provider config More.busy).1 in
  exists sess arn cred,
    source sess = target_source config /\
    trace w' = trace More.busy ++
      [EvNewSession (source sess) None;
       EvGetCallerIdentity sess (inr (mkIdentity (Some arn)));
       EvAssumeRole sess
         (mkAssumeRoleInput "arn:aws:iam::456:role/admin" (Spec.tail_segment arn) 3600)
         (inr cred);
       EvWriteProfile cred "swamp" (Config_Region sess)] /\
    store w' = <["swamp" := (cred, Config_Region sess)]> (store More.busy) /\
    files w' = files More.busy /\ stdin w' = stdin More.busy /\ clock w' = clock More.busy.
Proof.
  cbv zeta.
  apply (plain_pass Sample.provider (More.without_export (Sample.without_mfa Sample.config))
           More.busy).
  - reflexivity.
  - reflexivity.
  - vm_compute. reflexivity.
Defined.

(** ** How a run can end *)

Lemma last_log ev w : last (trace (log ev w)) = Some ev.
Proof. apply last_snoc. Qed.

Lemma ends_well_ret {A} (a : A) : ends_well (ret a).
Proof. intros w. exact I. Qed.

Lemma ends_well_returns {A} (m : M A) :
  (forall w, exists a, (m w).2 = Ret a) -> ends_well m.
Proof. intros Hm w. destruct (Hm w) as [a ->]. exact I. Qed.

Lemma ends_well_bind {A B} (m : M A) (k : A -> M B) :
  ends_well m -> (forall a, ends_well (k a)) -> ends_well (bind m k).
Proof.
  intros Hm Hk w. specialize (Hm w). unfold bind.
  destruct (m w) as [w1 [a|c|e]]; cbn [fst snd] in *; [apply Hk|exact Hm|exact Hm].
Qed.

Lemma ends_well_die {A} msg err :
  msg ∈ die_messages -> ends_well (@die A msg err).
Proof.
  intros Hmsg w. unfold die, bind, Fprintf_Stderr, emit, os_Exit. cbn [fst snd].
  split; [reflexivity|]. exists msg, err. split; [exact Hmsg|apply last_log].
Qed.

Lemma ends_well_session {B} env src (k : Session -> M B) :
  (forall sess, ends_well (k sess)) ->
  ends_well (r <-- session_new env src ;; sess <-- Must r ;; k sess).
Proof.
  intros Hk w.
  destruct (session_failure env w src) as [err|] eqn:Hsess.
  - erewrite bind_Ret by (unfold session_new; rewrite Hsess; reflexivity).
    cbn [Must]. unfold bind, panic. cbn [fst snd]. left. exists src. apply last_log.
  - erewrite bind_Ret by (unfold session_new; rewrite Hsess; reflexivity).
    cbn [Must]. erewrite bind_Ret by reflexivity. apply Hk.
Qed.

Lemma ends_well_getTokenCode serial : ends_well (getTokenCode serial).
Proof.
  unfold getTokenCode. case_bool_decide; [apply ends_well_ret|].
  apply ends_well_bind; [apply ends_well_returns; intros w; by exists tt|]. intros _.
  apply ends_well_bind.
  { apply ends_well_returns. intros w. unfold ReadString_Stdin.
    destruct (Go.ReadString (stdin w) LF) as [[line rest]|]; by eexists. }
  intros [line|]; [apply ends_well_ret|].
  apply ends_well_die. unfold die_messages. set_solver.
Qed.

Lemma ends_well_validateSessionToken env options :
  ends_well (validateSessionToken env options).
Proof.
  apply (ends_well_session env (WithOptions options)). intros sess.
  apply ends_well_bind; [apply ends_well_returns; intros w; by eexists|].
  intros r. apply ends_well_ret.
Qed.

Lemma ends_well_getSessionToken env options config :
  ends_well (getSessionToken env options config).
Proof.
  apply (ends_well_session env (WithOptions options)). intros sess.
  apply ends_well_bind; [apply ends_well_getTokenCode|]. intros code.
  apply ends_well_bind; [apply ends_well_returns; intros w; by eexists|].
  intros [err|cred]; [|apply ends_well_ret].
  apply ends_well_die. unfold die_messages. set_solver.
Qed.

Lemma ends_well_ensureSessionTokenProfile env config :
  ends_well (ensureSessionTokenProfile env config).
Proof.
  apply ends_well_bind; [apply ends_well_validateSessionToken|].
  intros [|]; [apply ends_well_returns; intros w; by exists tt|].
  apply ends_well_bind; [apply ends_well_getSessionToken|]. intros cred.
  apply ends_well_returns. intros w. by exists tt.
Qed.

Lemma ends_well_identity {B} env svc (k : string -> M B) :
  (forall userId, ends_well (k userId)) ->
  ends_well (output <-- getCallerId env svc ;; userId <-- deref (Arn output) ;; k userId).
Proof.
  intros Hk w.
  destruct (sts_GetCallerIdentity env w svc) as [err|[[arn|]]] eqn:Hid.
  - erewrite bind_Exited
      by (unfold getCallerId, GetCallerIdentity, bind; rewrite Hid; reflexivity).
    cbn [fst snd]. split; [reflexivity|].
    exists "Error fetching caller id", err. split; [|apply last_log].
    unfold die_messages. set_solver.
  - erewrite bind_Ret
      by (unfold getCallerId, GetCallerIdentity, bind; rewrite Hid; reflexivity).
    cbn [deref Arn]. erewrite bind_Ret by reflexivity. apply Hk.
  - erewrite bind_Ret
      by (unfold getCallerId, GetCallerIdentity, bind; rewrite Hid; reflexivity).
    cbn [deref Arn]. unfold bind, panic. cbn [fst snd].
    right. exists svc. apply last_log.
Qed.

Lemma ends_well_ensureTargetProfile env config sess :
  ends_well (ensureTargetProfile env config sess).
Proof.
  unfold ensureTargetProfile. cbv zeta.
  apply ends_well_identity. intros userId.
  unfold index. rewrite Split_lookup_last.
  apply ends_well_bind; [apply ends_well_ret|]. intros roleSessionName.
  apply ends_well_bind; [|intros cred; apply ends_well_returns; intros w0; by exists tt].
  apply ends_well_bind; [apply ends_well_returns; intros w0; by eexists|].
  intros [err|cred]; [|apply ends_well_ret].
  apply ends_well_die. unfold die_messages. set_solver.
Qed.

Lemma ends_well_writeProfileToFile env config :
  ends_well (writeProfileToFile env config).
Proof.
  apply ends_well_bind.
  { apply ends_well_returns. intros w. unfold os_Create.
    destruct (os_Create_failure env w (exportFile config)); by eexists. }
  intros [err|]; [|apply ends_well_returns; intros w; by exists tt].
  apply ends_well_die. unfold die_messages. set_solver.
Qed.

Lemma ends_well_chain env config : ends_well (chain env config).
Proof.
  apply ends_well_bind.
  { case_bool_decide; [apply ends_well_ensureSessionTokenProfile|apply ends_well_ret]. }
  intros _. unfold targetSession.
  assert (Hrest : forall sess,
            ends_well (ensureTargetProfile env config sess ;;;
                       if exportProfile config then writeProfileToFile env config
                       else ret tt)).
  { intros sess. apply ends_well_bind; [apply ends_well_ensureTargetProfile|].
    intros _. destruct (exportProfile config);
      [apply ends_well_writeProfileToFile|apply ends_well_ret]. }
  intros w. destruct (useInstanceProfile config).
  - rewrite bind_assoc. exact (ends_well_session env Default _ Hrest w).
  - rewrite bind_assoc. exact (ends_well_session env _ _ Hrest w).
Qed.

(** X16.  However many passes the loop is followed for, a run that exits
    does so with code 1 and its last event is a line on the error stream
    made of one of the five messages of the source, a colon, the error
    and a newline; a run that panics does so right after a session could
    not be made, with that error, or right after the provider returned
    an identity without [Arn].  Nothing else ends a run. *)
Theorem how_a_run_can_end env config n w :
  abnormal_cause (main_loop env n config w).2 (last (trace (main_loop env n config w).1)).
Proof.
  revert w. change (ends_well (main_loop env n config)).
  induction n as [|n IH]; [apply ends_well_ret|]. cbn [main_loop].
  apply ends_well_bind; [apply ends_well_chain|]. intros _.
  destruct (renew config); cbn [negb]; [|apply ends_well_ret].
  apply ends_well_bind; [apply ends_well_returns; intros w; by exists tt|].
  intros _. exact IH.
Qed.
